(** * automate-pr: GitHub device flow, token lifecycle and rate limiting

    A shallow embedding of

    - [TokenManager]                (auth/token-manager.ts, the unnamed part 004),
    - [GitHubDeviceFlow]            (packages/core/src/auth/github-device-flow.ts),
    - [DeviceFlow], the second class called GitHubDeviceFlow
                                    (packages/core/src/auth/device-flow.ts),

    and the properties of the specification that concern them.

    The TypeScript code is [async]: every method is written here in a
    resumption monad whose suspension points are the [await]s of the source.
    Running a task alone to completion ([exec]) gives the sequential meaning
    of a call; resuming several tasks in an arbitrary order ([interleave])
    gives the meaning of calls issued concurrently on the one JavaScript
    thread.

    Numbers are modelled by [Z] (the timestamps and delays of the code are
    integral milliseconds or seconds, far below 2^53).  The clock [now] moves
    only while a timer started by [setTimeout] is pending, or when a schedule
    says so; network round trips take no time of their own. *)

From Stdlib Require Import ZArith String Ascii List Lia Bool.
From stdpp Require Import base gmap strings list pretty.

Open Scope string_scope.
Open Scope list_scope.
Open Scope Z_scope.

(** ** JavaScript values the code looks at *)

#[local] Set Warnings "-register-all".

(** A thrown or rejected value.  [Rejection] is any value with an optional
    [response.status] and an optional [message] ([new Error(m)] has only the
    message).  [PRAutomatorError] is an instance of the class of that name,
    [constructor(type, message, metadata = {})], which hands [message] to
    [Error]: it has its [type], its [message], and the [error] that its
    metadata carries, if any. *)
Inductive Exn : Type :=
| Rejection (status : option Z) (message : option string)
| PRAutomatorError (type : string) (message : string) (cause : option Exn).

(** [new Error(message)] *)
Definition Error (message : string) : Exn := Rejection None (Some message).

(** [new PRAutomatorError(text, { cause, type })], the way token-manager.ts,
    device-flow.ts and vault.ts call the constructor.  The class takes
    [(type, message, metadata = {})]: the text arrives as the [type]; the
    options object arrives as the message, which [Error] turns into the
    string "[object Object]"; the metadata is the empty default, so neither
    the [type] of the options nor their [cause] is kept. *)
Definition new_PRAutomatorError (text : string) (cause : option Exn)
    (type : string) : Exn :=
  PRAutomatorError text "[object Object]" None.

(** [error?.response?.status] *)
Definition exn_status (e : Exn) : option Z :=
  match e with
  | Rejection s _ => s
  | PRAutomatorError _ _ _ => None
  end.

(** [error?.message] *)
Definition exn_message (e : Exn) : option string :=
  match e with
  | Rejection _ m => m
  | PRAutomatorError _ m _ => Some m
  end.

(** [error.message] inside a template literal *)
Definition message_text (e : Exn) : string :=
  match exn_message e with
  | Some m => m
  | None => "undefined"
  end.

(** [s.includes(sub)] *)
Fixpoint includes (s sub : string) : bool :=
  String.prefix sub s ||
  match s with
  | EmptyString => false
  | String _ s' => includes s' sub
  end.

(** Truthiness of an optional string ([undefined], [null] and [""] are falsy). *)
Definition truthy_string (s : option string) : option string :=
  match s with
  | Some v => if decide (v = "") then None else Some v
  | None => None
  end.

(** Truthiness of an optional number ([undefined] and [0] are falsy). *)
Definition truthy_number (n : option Z) : option Z :=
  match n with
  | Some v => if v =? 0 then None else Some v
  | None => None
  end.

(** ** Data of the source *)

(** [interface TokenInfo] *)
Record TokenInfo : Type := {
  access_token : string;
  expires_at : option Z;      (* Unix timestamp in milliseconds *)
  refresh_token : option string
}.

(** [interface RateLimitInfo] *)
Record RateLimitInfo : Type := {
  limit : Z;
  remaining : Z;
  reset : Z                   (* Unix timestamp in seconds *)
}.

(** [interface DeviceCodeResponse] *)
Record DeviceCodeResponse : Type := {
  device_code : string;
  user_code : string;
  verification_uri : string;
  expires_in : Z;
  interval : Z
}.

(** [interface TokenResponse] ([AccessTokenResponse] in github-device-flow.ts
    is the same without the two optional fields); [token_type] and [scope]
    are never read and are left out. *)
Record TokenResponse : Type := {
  tr_access_token : string;
  tr_refresh_token : option string;
  tr_expires_in : option Z
}.

(** The JSON body of a refused token request: [{error, error_description?}]. *)
Record OAuthError : Type := {
  error : string;
  error_description : option string
}.

(** What [initiate] returns. *)
Record Verification : Type := {
  v_verification_uri : string;
  v_user_code : string
}.

(** ** The network *)

Inductive Authorization : Type :=
| Bearer (token : string)
| Basic (credentials : string).   (* the text that is base64-encoded *)

(** A call of [fetch]: method, URL, [Authorization] header and the fields of
    the JSON body. *)
Record Request : Type := {
  method : string;
  url : string;
  authorization : option Authorization;
  body : list (string * string)
}.

(** A [Response]: [ok] with its JSON body, or not [ok] with its status text
    and body. *)
Inductive Response (A E : Type) : Type :=
| Ok (data : A)
| NotOk (statusText : string) (err : E).
Arguments Ok {A E} data.
Arguments NotOk {A E} statusText err.

(** The promise returned by [fetch] rejects (transport failure) or resolves
    to a response. *)
Inductive Fetched (A E : Type) : Type :=
| Rejects (e : Exn)
| Resolves (r : Response A E).
Arguments Rejects {A E} e.
Arguments Resolves {A E} r.

(** The remote side: for every endpoint the code talks to, the reply to the
    latest request given all the requests made so far (the latest is the last
    of the list).  The body of a reply has the type the call site casts it
    to. *)
Record Server : Type := {
  device_code_endpoint : list Request -> Fetched DeviceCodeResponse unit;
  access_token_endpoint : list Request -> Fetched TokenResponse OAuthError;
  rate_limit_endpoint : list Request -> Fetched RateLimitInfo unit;
  user_endpoint : list Request -> Fetched unit unit;
  revoke_endpoint : list Request -> Fetched unit unit
}.

(** ** The state of a run *)

(** The private fields of [TokenManager]. *)
Record TokenManagerFields : Type := {
  rateLimitInfo : option RateLimitInfo;
  lastRequest : Z;
  backoffDelay : Z
}.

(** The private fields of either [GitHubDeviceFlow] class. *)
Record DeviceFlowFields : Type := {
  clientId : string;
  scopes : list string;
  deviceCode : option string;
  pollInterval : Z;
  maxAttempts : Z;
  expiresAt : option Z
}.

Record World : Type := {
  now : Z;                               (* Date.now() *)
  credentials : gmap string string;      (* CredentialVault.credentials *)
  server : Server;
  fetched : list Request;                (* every call of fetch, in order *)
  timeouts : list Z;                     (* every delay given to setTimeout *)
  calls : list string;                   (* arguments seen by a spied callback *)
  manager : TokenManagerFields;
  flow : DeviceFlowFields
}.

Definition set_now (f : Z -> Z) (w : World) : World :=
  {| now := f (now w); credentials := credentials w; server := server w;
     fetched := fetched w; timeouts := timeouts w; calls := calls w;
     manager := manager w; flow := flow w |}.

Definition set_credentials (f : gmap string string -> gmap string string)
    (w : World) : World :=
  {| now := now w; credentials := f (credentials w); server := server w;
     fetched := fetched w; timeouts := timeouts w; calls := calls w;
     manager := manager w; flow := flow w |}.

Definition set_fetched (f : list Request -> list Request) (w : World) : World :=
  {| now := now w; credentials := credentials w; server := server w;
     fetched := f (fetched w); timeouts := timeouts w; calls := calls w;
     manager := manager w; flow := flow w |}.

Definition set_timeouts (f : list Z -> list Z) (w : World) : World :=
  {| now := now w; credentials := credentials w; server := server w;
     fetched := fetched w; timeouts := f (timeouts w); calls := calls w;
     manager := manager w; flow := flow w |}.

Definition set_calls (f : list string -> list string) (w : World) : World :=
  {| now := now w; credentials := credentials w; server := server w;
     fetched := fetched w; timeouts := timeouts w; calls := f (calls w);
     manager := manager w; flow := flow w |}.

Definition set_manager (f : TokenManagerFields -> TokenManagerFields)
    (w : World) : World :=
  {| now := now w; credentials := credentials w; server := server w;
     fetched := fetched w; timeouts := timeouts w; calls := calls w;
     manager := f (manager w); flow := flow w |}.

Definition set_flow (f : DeviceFlowFields -> DeviceFlowFields)
    (w : World) : World :=
  {| now := now w; credentials := credentials w; server := server w;
     fetched := fetched w; timeouts := timeouts w; calls := calls w;
     manager := manager w; flow := f (flow w) |}.

(** ** Asynchronous computations *)

Inductive Outcome (A : Type) : Type :=
| Return (a : A)
| Throw (e : Exn).
Arguments Return {A} a.
Arguments Throw {A} e.

(** A task is settled, or suspended at an [await]: when it is resumed in a
    world [w] it changes the world to [upd w] and goes on as [next w]. *)
Inductive Task (A : Type) : Type :=
| Done (o : Outcome A)
| Susp (upd : World -> World) (next : World -> Task A).
Arguments Done {A} o.
Arguments Susp {A} upd next.

(** Calling an [async] function runs it up to its first [await]. *)
Definition Async (A : Type) : Type := World -> Task A * World.

Definition ret {A} (a : A) : Async A := fun w => (Done (Return a), w).

Definition throw {A} (e : Exn) : Async A := fun w => (Done (Throw e), w).

Fixpoint bindT {A B} (t : Task A) (f : A -> Async B) (w : World)
  : Task B * World :=
  match t with
  | Done (Return a) => f a w
  | Done (Throw e) => (Done (Throw e), w)
  | Susp upd next =>
      (Susp (fun w' => snd (bindT (next w') f (upd w')))
            (fun w' => fst (bindT (next w') f (upd w'))), w)
  end.

Definition bind {A B} (m : Async A) (f : A -> Async B) : Async B :=
  fun w => bindT (fst (m w)) f (snd (m w)).

(** [try { m } catch (error) { h error }] *)
Fixpoint catchT {A} (t : Task A) (h : Exn -> Async A) (w : World)
  : Task A * World :=
  match t with
  | Done (Return a) => (Done (Return a), w)
  | Done (Throw e) => h e w
  | Susp upd next =>
      (Susp (fun w' => snd (catchT (next w') h (upd w')))
            (fun w' => fst (catchT (next w') h (upd w'))), w)
  end.

Definition try_catch {A} (m : Async A) (h : Exn -> Async A) : Async A :=
  fun w => catchT (fst (m w)) h (snd (m w)).

(** The suspension of an [await]: the rest runs in a later turn. *)
Definition yield {A} (a : A) : Async A :=
  fun w => (Susp (fun w' => w') (fun _ => Done (Return a)), w).

(** [await m] *)
Definition await {A} (m : Async A) : Async A := bind m yield.

Declare Scope async_scope.
Delimit Scope async_scope with async.
Notation "'let*' x ':=' m 'in' k" := (bind m (fun x => k))
  (at level 10, x name, m at level 100, k at level 200) : async_scope.
Notation "m ';;' k" := (bind m (fun _ => k))
  (at level 100, k at level 200, right associativity) : async_scope.
Open Scope async_scope.

Definition get {A} (f : World -> A) : Async A := fun w => (Done (Return (f w)), w).

Definition modify (f : World -> World) : Async unit :=
  fun w => (Done (Return tt), f w).

(** Run a task to completion with nothing else scheduled in between. *)
Fixpoint run {A} (t : Task A) (w : World) : Outcome A * World :=
  match t with
  | Done o => (o, w)
  | Susp upd next => run (next w) (upd w)
  end.

(** The sequential meaning of a call. *)
Definition exec {A} (m : Async A) (w : World) : Outcome A * World :=
  run (fst (m w)) (snd (m w)).

(** Resume a task for one turn. *)
Definition resume {A} (t : Task A) (w : World) : Task A * World :=
  match t with
  | Done o => (Done o, w)
  | Susp upd next => (next w, upd w)
  end.

(** ** Host primitives *)

(** [Date.now()] *)
Definition Date_now : Async Z := get now.

(** The longest delay a timer of Node can have, [2 ** 31 - 1] ms. *)
Definition TIMEOUT_MAX : Z := 2147483647.

(** The delay Node gives a timer asked for [ms]: a delay below 1 or above
    [TIMEOUT_MAX] is set to 1. *)
Definition timer_delay (ms : Z) : Z :=
  if (1 <=? ms) && (ms <=? TIMEOUT_MAX) then ms else 1.

(** [new Promise(resolve => setTimeout(resolve, ms))]: the timer is started
    at the call, and the clock has moved by the delay of the timer when the
    promise resolves. *)
Definition setTimeout (ms : Z) : Async unit :=
  fun w => (Susp (set_now (fun t => t + timer_delay ms))
                 (fun _ => Done (Return tt)),
            set_timeouts (fun l => l ++ [ms]) w).

(** [fetch(url, init)] against one endpoint of the server; [response.json()]
    is the body carried by the response. *)
Definition fetch {A E} (endpoint : Server -> list Request -> Fetched A E)
    (req : Request) : Async (Response A E) :=
  fun w =>
    let w' := set_fetched (fun l => l ++ [req]) w in
    match endpoint (server w') (fetched w') with
    | Rejects e => (Done (Throw e), w')
    | Resolves r => (Done (Return r), w')
    end.

(** [mkdir] and [writeFile] of node:fs/promises.  The file system is not
    part of the world: both are taken to succeed, and what they leave on the
    disk is not modelled. *)
Definition mkdir : Async unit := ret tt.

Definition writeFile : Async unit := ret tt.

(** [CredentialVault] (security/vault.ts). *)

(** [private async save()] *)
Definition save : Async unit :=
  try_catch
    (await mkdir ;;
     await writeFile)
    (fun error =>
       throw (new_PRAutomatorError "Failed to save credential vault"
                (Some error) "VAULT_ERROR")).

(** [get(key)], which is synchronous. *)
Definition vault_get (key : string) : Async (option string) :=
  get (fun w => credentials w !! key).

(** [async set(key, value)] *)
Definition vault_set (key value : string) : Async unit :=
  modify (set_credentials (fun c => <[key := value]> c)) ;; await save.

(** [async remove(key)] *)
Definition vault_remove (key : string) : Async unit :=
  modify (set_credentials (fun c => delete key c)) ;; await save.

(** Modelled from the spec: the [getSecret] method that github-device-flow.ts
    calls on its vault is not in the sources; it is taken to be the [get] of
    the CredentialStore contract (a key-to-string map), returned as a
    promise. *)
Definition getSecret (key : string) : Async (option string) := vault_get key.

(** Modelled from the spec: the [setSecret] method of that vault, taken to be
    the [set] of the CredentialStore contract. *)
Definition setSecret (key value : string) : Async unit := vault_set key value.

(** Modelled from the spec: the [deleteSecret] method of that vault, taken to
    be the [remove] of the CredentialStore contract. *)
Definition deleteSecret (key : string) : Async unit := vault_remove key.

(** [JSON.parse] and [JSON.stringify] as the token manager uses them:
    [JSON_parse] is [None] when parsing throws, and otherwise the object
    read as a [TokenInfo]. *)
Class Json : Type := {
  JSON_parse : string -> option TokenInfo;
  JSON_stringify : TokenInfo -> string;
  JSON_stringify_rate : RateLimitInfo -> string
}.

(** A spied callback: records the argument, then behaves as [f]. *)
Definition spy {T} (f : string -> Async T) (token : string) : Async T :=
  modify (set_calls (fun l => l ++ [token])) ;; f token.

(** ** auth/token-manager.ts *)

Module TokenManager.
Section WithJson.
Context `{J : Json}.

Definition TOKEN_INFO_KEY : string := "github.token_info".
Definition RATE_LIMIT_KEY : string := "github.rate_limit".
Definition MIN_TOKEN_LIFETIME : Z := 5 * 60 * 1000.
Definition DEFAULT_BACKOFF : Z := 1000.

(** The fields of a freshly constructed manager. *)
Definition fresh : TokenManagerFields :=
  {| rateLimitInfo := None; lastRequest := 0; backoffDelay := DEFAULT_BACKOFF |}.

Definition set_rateLimitInfo (r : option RateLimitInfo) : Async unit :=
  modify (set_manager (fun m =>
    {| rateLimitInfo := r; lastRequest := lastRequest m;
       backoffDelay := backoffDelay m |})).

Definition set_lastRequest (t : Z) : Async unit :=
  modify (set_manager (fun m =>
    {| rateLimitInfo := rateLimitInfo m; lastRequest := t;
       backoffDelay := backoffDelay m |})).

Definition set_backoffDelay (f : Z -> Z) : Async unit :=
  modify (set_manager (fun m =>
    {| rateLimitInfo := rateLimitInfo m; lastRequest := lastRequest m;
       backoffDelay := f (backoffDelay m) |})).

(** [private async getStoredTokenInfo()] *)
Definition getStoredTokenInfo : Async (option TokenInfo) :=
  let* data := vault_get TOKEN_INFO_KEY in
  match truthy_string data with
  | None => ret None
  | Some data =>
      match JSON_parse data with
      | Some tokenInfo => ret (Some tokenInfo)
      | None => ret None                         (* catch { return undefined } *)
      end
  end.

(** [private async shouldRefreshToken(tokenInfo)] *)
Definition shouldRefreshToken (tokenInfo : TokenInfo) : Async bool :=
  match truthy_number (expires_at tokenInfo) with
  | None => ret false
  | Some expires =>
      let* t := Date_now in
      ret (t + MIN_TOKEN_LIFETIME >? expires)
  end.

(** [async storeToken(accessToken, expiresIn?, refreshToken?)] *)
Definition storeToken (accessToken : string) (expiresIn : option Z)
    (refreshToken : option string) : Async unit :=
  let* t := Date_now in
  let tokenInfo :=
    {| access_token := accessToken;
       expires_at :=
         match truthy_number expiresIn with
         | Some e => Some (t + e * 1000)
         | None => None
         end;
       refresh_token := truthy_string refreshToken |} in
  await (vault_set TOKEN_INFO_KEY (JSON_stringify tokenInfo)).

(** The request of [refreshToken]. *)
Definition refresh_request (refreshToken : string) : Request :=
  {| method := "POST";
     url := "https://github.com/login/oauth/access_token";
     authorization := None;
     body := [("grant_type", "refresh_token"); ("refresh_token", refreshToken)] |}.

(** [private async refreshToken(tokenInfo?)] *)
Definition refreshToken (tokenInfo : option TokenInfo) : Async string :=
  let* tokenInfo :=
    match tokenInfo with
    | Some t => ret (Some t)
    | None => await getStoredTokenInfo
    end in
  match truthy_string (tokenInfo ≫= refresh_token) with
  | None =>
      throw (new_PRAutomatorError "No refresh token available" None "AUTH_ERROR")
  | Some refreshToken =>
      try_catch
        (let* response :=
           await (fetch access_token_endpoint (refresh_request refreshToken)) in
         match response with
         | NotOk statusText _ =>
             throw (Error ("Token refresh failed: " +:+ statusText))
         | Ok data =>
             let* data := await (ret data) in
             await (storeToken (tr_access_token data) (tr_expires_in data)
                      (tr_refresh_token data)) ;;
             ret (tr_access_token data)
         end)
        (fun error =>
           throw (new_PRAutomatorError "Failed to refresh token" (Some error)
                    "AUTH_ERROR"))
  end.

(** [async getToken()] *)
Definition getToken : Async string :=
  let* tokenInfo := await getStoredTokenInfo in
  match tokenInfo with
  | None => throw (new_PRAutomatorError "No token available" None "AUTH_ERROR")
  | Some tokenInfo =>
      let* refresh := await (shouldRefreshToken tokenInfo) in
      if refresh : bool then refreshToken (Some tokenInfo)
      else ret (access_token tokenInfo)
  end.

(** The request of [updateRateLimitInfo]. *)
Definition rate_limit_request (token : string) : Request :=
  {| method := "GET";
     url := "https://api.github.com/rate_limit";
     authorization := Some (Bearer token);
     body := [] |}.

(** [private async updateRateLimitInfo()] *)
Definition updateRateLimitInfo : Async unit :=
  try_catch
    (let* token := await getToken in
     let* response :=
       await (fetch rate_limit_endpoint (rate_limit_request token)) in
     match response with
     | NotOk _ _ => ret tt
     | Ok data =>
         let* data := await (ret data) in
         set_rateLimitInfo (Some data) ;;
         await (vault_set RATE_LIMIT_KEY (JSON_stringify_rate data))
     end)
    (fun _ => ret tt).                        (* Ignore rate limit check errors *)

(** [private async waitForRateLimit()] *)
Definition waitForRateLimit : Async unit :=
  let* t := Date_now in
  let* this := get manager in
  let timeSinceLastRequest := t - lastRequest this in
  (if timeSinceLastRequest <? backoffDelay this
   then await (setTimeout (backoffDelay this - timeSinceLastRequest))
   else ret tt) ;;
  let* this := get manager in
  match rateLimitInfo this with
  | Some info =>
      if remaining info =? 0 then
        let* t := Date_now in
        let waitTime := reset info * 1000 - t in
        if waitTime >? 0 then await (setTimeout waitTime) else ret tt
      else ret tt
  | None => ret tt
  end ;;
  let* t := Date_now in
  set_lastRequest t.

(** [private isRateLimitError(error)] *)
Definition isRateLimitError (e : Exn) : bool :=
  bool_decide (exn_status e = Some 429) ||
  match exn_message e with
  | Some m => includes m "rate limit"
  | None => false
  end.

(** [private isAuthError(error)] *)
Definition isAuthError (e : Exn) : bool :=
  bool_decide (exn_status e = Some 401) ||
  match exn_message e with
  | Some m => includes m "Unauthorized"
  | None => false
  end.

(** [async executeRequest<T>(request)] *)
Definition executeRequest {T} (request : string -> Async T) : Async T :=
  await waitForRateLimit ;;
  try_catch
    (let* token := await getToken in
     let* result := await (request token) in
     set_backoffDelay (fun _ => DEFAULT_BACKOFF) ;;
     await updateRateLimitInfo ;;
     ret result)
    (fun error =>
       if isRateLimitError error then
         set_backoffDelay (fun d => d * 2) ;;
         throw (new_PRAutomatorError "Rate limit exceeded" (Some error)
                  "RATE_LIMIT")
       else if isAuthError error then
         let* token := await (refreshToken None) in
         request token
       else throw error).

End WithJson.
End TokenManager.

(** ** Polling loops *)

(** How an iteration of a [while] loop ends when it does not throw: with
    [continue] (or by falling off the end of the body), the loop variable
    [attempts] having the given value, or with [return]. *)
Inductive Iteration (A : Type) : Type :=
| Continue (attempts : Z)
| ReturnWith (a : A).
Arguments Continue {A} attempts.
Arguments ReturnWith {A} a.

(** ** packages/core/src/auth/github-device-flow.ts *)

Module GitHubDeviceFlow.

Definition DEVICE_CODE : string := "https://github.com/login/device/code".
Definition ACCESS_TOKEN : string := "https://github.com/login/oauth/access-token".
Definition REVOKE : string := "https://api.github.com/applications".

(** The fields set by the constructor and the field initialisers. *)
Definition fresh (clientId : string) (scopes : list string) : DeviceFlowFields :=
  {| clientId := clientId; scopes := scopes; deviceCode := None;
     pollInterval := 5000; maxAttempts := 12; expiresAt := None |}.

Definition device_code_request (this : DeviceFlowFields) : Request :=
  {| method := "POST"; url := DEVICE_CODE; authorization := None;
     body := [("client_id", clientId this);
              ("scope", String.concat " " (scopes this))] |}.

Definition access_token_request (this : DeviceFlowFields) : Request :=
  {| method := "POST"; url := ACCESS_TOKEN; authorization := None;
     body := [("client_id", clientId this);
              ("device_code", default "" (deviceCode this));
              ("grant_type", "urn:ietf:params:oauth:grant-type:device_code")] |}.

Definition revoke_request (this : DeviceFlowFields) (token : string) : Request :=
  {| method := "DELETE";
     url := REVOKE +:+ "/" +:+ clientId this +:+ "/token";
     authorization := Some (Basic (clientId this +:+ ":" +:+ token));
     body := [] |}.

(** [async initiate()] *)
Definition initiate : Async Verification :=
  try_catch
    (let* this := get flow in
     let* response :=
       await (fetch device_code_endpoint (device_code_request this)) in
     match response with
     | NotOk statusText _ =>
         throw (Error ("Failed to initiate device flow: " +:+ statusText))
     | Ok data =>
         let* data := await (ret data) in
         let* t := Date_now in
         modify (set_flow (fun this =>
           {| clientId := clientId this; scopes := scopes this;
              deviceCode := Some (device_code data);
              pollInterval := interval data * 1000;
              maxAttempts := maxAttempts this;
              expiresAt := Some (t + expires_in data * 1000) |})) ;;
         ret {| v_verification_uri := verification_uri data;
                v_user_code := user_code data |}
     end)
    (fun error =>
       throw (PRAutomatorError "auth"
                ("Failed to initiate GitHub device flow: " +:+ message_text error)
                (Some error))).

(** One turn of the [while] loop of [poll]: the [try] block and its [catch]. *)
Definition poll_iteration (attempts : Z) : Async (Iteration string) :=
  try_catch
    (let* this := get flow in
     let* response :=
       await (fetch access_token_endpoint (access_token_request this)) in
     match response with
     | NotOk statusText refused =>
         let* refused := await (ret refused) in
         if decide (error refused = "authorization_pending") then
           (* User hasn't authorized yet, continue polling *)
           let* this := get flow in
           await (setTimeout (pollInterval this)) ;;
           ret (Continue (attempts + 1))
         else
           throw (Error (default statusText
                           (truthy_string (error_description refused))))
     | Ok data =>
         let* data := await (ret data) in
         await (setSecret "github_token" (tr_access_token data)) ;;
         ret (ReturnWith (tr_access_token data))
     end)
    (fun error =>
       let* this := get flow in
       if attempts =? maxAttempts this - 1 then
         throw (PRAutomatorError "auth"
                  ("Failed to obtain access token: " +:+ message_text error)
                  (Some error))
       else ret (Continue attempts)).

(** The [while (attempts < this.maxAttempts)] loop of [poll] and the [throw]
    after it; [None] when [fuel] turns do not finish it. *)
Fixpoint poll_loop (fuel : nat) (attempts : Z) : Async (option string) :=
  match fuel with
  | O => ret None
  | S fuel' =>
      let* this := get flow in
      if attempts <? maxAttempts this then
        let* it := poll_iteration attempts in
        match it with
        | Continue attempts' => poll_loop fuel' attempts'
        | ReturnWith token => ret (Some token)
        end
      else
        throw (PRAutomatorError "auth"
                 "Max polling attempts reached. Please try again." None)
  end.

(** [async poll()]: the access token of the returned object. *)
Definition poll (fuel : nat) : Async (option string) :=
  let* this := get flow in
  match truthy_string (deviceCode this) with
  | None =>
      throw (PRAutomatorError "auth"
               "Device flow not initiated. Call initiate() first." None)
  | Some _ =>
      let* t := Date_now in
      if match expiresAt this with
         | Some expires => t >? expires
         | None => false
         end
      then
        throw (PRAutomatorError "auth"
                 "Device code has expired. Please initiate a new flow." None)
      else poll_loop fuel 0
  end.

(** [async revoke()] *)
Definition revoke : Async unit :=
  try_catch
    (let* token := await (getSecret "github_token") in
     match truthy_string token with
     | None => ret tt                              (* No token to revoke *)
     | Some token =>
         let* this := get flow in
         let* response :=
           await (fetch revoke_endpoint (revoke_request this token)) in
         match response with
         | NotOk statusText _ =>
             throw (Error ("Failed to revoke token: " +:+ statusText))
         | Ok _ =>
             (* Remove the token from secure storage *)
             await (deleteSecret "github_token")
         end
     end)
    (fun error =>
       throw (PRAutomatorError "auth"
                ("Failed to revoke GitHub token: " +:+ message_text error)
                (Some error))).

Definition user_request (token : string) : Request :=
  {| method := "GET"; url := "https://api.github.com/user";
     authorization := Some (Bearer token); body := [] |}.

(** [async getStoredToken()] *)
Definition getStoredToken : Async (option string) := getSecret "github_token".

(** [async hasValidToken()] *)
Definition hasValidToken : Async bool :=
  let* token := await getStoredToken in
  match truthy_string token with
  | None => ret false
  | Some token =>
      try_catch
        ((* Verify token with GitHub API *)
         let* response := await (fetch user_endpoint (user_request token)) in
         match response with
         | Ok _ => ret true
         | NotOk _ _ => ret false
         end)
        (fun _ => ret false)
  end.

End GitHubDeviceFlow.

(** ** packages/core/src/auth/device-flow.ts *)

Module DeviceFlow.
Section WithJson.
Context `{J : Json}.

Definition DEVICE_CODE : string := "https://github.com/login/device/code".
Definition ACCESS_TOKEN : string := "https://github.com/login/oauth/access_token".
Definition VERIFY : string := "https://api.github.com/user".

(** [interface DeviceFlowOptions] *)
Record DeviceFlowOptions : Type := {
  opt_clientId : string;
  opt_scopes : option (list string);
  opt_maxAttempts : option Z;
  opt_pollInterval : option Z
}.

(** The fields set by the constructor. *)
Definition fresh (options : DeviceFlowOptions) : DeviceFlowFields :=
  {| clientId := opt_clientId options;
     scopes := default ["repo"] (opt_scopes options);
     deviceCode := None;
     pollInterval := default 25 (truthy_number (opt_pollInterval options)) * 1000;
     maxAttempts := default 12 (truthy_number (opt_maxAttempts options));
     expiresAt := None |}.

Definition device_code_request (this : DeviceFlowFields) : Request :=
  {| method := "POST"; url := DEVICE_CODE; authorization := None;
     body := [("client_id", clientId this);
              ("scope", String.concat " " (scopes this))] |}.

Definition access_token_request (this : DeviceFlowFields) : Request :=
  {| method := "POST"; url := ACCESS_TOKEN; authorization := None;
     body := [("client_id", clientId this);
              ("device_code", default "" (deviceCode this));
              ("grant_type", "urn:ietf:params:oauth:grant-type:device_code")] |}.

Definition verify_request (token : string) : Request :=
  {| method := "GET"; url := VERIFY; authorization := Some (Bearer token);
     body := [] |}.

(** [async initiate()] *)
Definition initiate : Async Verification :=
  try_catch
    (let* this := get flow in
     let* response :=
       await (fetch device_code_endpoint (device_code_request this)) in
     match response with
     | NotOk statusText _ =>
         throw (Error ("GitHub API error: " +:+ statusText))
     | Ok data =>
         let* data := await (ret data) in
         let* t := Date_now in
         modify (set_flow (fun this =>
           {| clientId := clientId this; scopes := scopes this;
              deviceCode := Some (device_code data);
              pollInterval := pollInterval this;
              maxAttempts := maxAttempts this;
              expiresAt := Some (t + expires_in data * 1000) |})) ;;
         ret {| v_verification_uri := verification_uri data;
                v_user_code := user_code data |}
     end)
    (fun error =>
       throw (new_PRAutomatorError "Failed to initiate device flow" (Some error)
                "AUTH_ERROR")).

(** [private async verifyToken(token)] *)
Definition verifyToken (token : string) : Async unit :=
  try_catch
    (let* response := await (fetch user_endpoint (verify_request token)) in
     match response with
     | NotOk statusText _ =>
         throw (Error ("Token verification failed: " +:+ statusText))
     | Ok _ => ret tt
     end)
    (fun error =>
       throw (new_PRAutomatorError "Invalid access token" (Some error)
                "AUTH_ERROR")).

(** [error instanceof PRAutomatorError] *)
Definition instanceof_PRAutomatorError (e : Exn) : bool :=
  match e with
  | PRAutomatorError _ _ _ => true
  | Rejection _ _ => false
  end.

(** One turn of the [while] loop of [poll]: the [try] block and its [catch]. *)
Definition poll_iteration (attempts : Z) : Async (Iteration unit) :=
  try_catch
    (let* this := get flow in
     let* response :=
       await (fetch access_token_endpoint (access_token_request this)) in
     match response with
     | NotOk statusText _ =>
         throw (Error ("GitHub API error: " +:+ statusText))
     | Ok data =>
         let* data := await (ret data) in
         (* Verify token before storing *)
         await (verifyToken (tr_access_token data)) ;;
         (* Store token with refresh info *)
         await (TokenManager.storeToken (tr_access_token data)
                  (tr_expires_in data) (tr_refresh_token data)) ;;
         ret (ReturnWith tt)
     end)
    (fun error =>
       if instanceof_PRAutomatorError error then throw error
       else
         (* Wait before next attempt *)
         let* this := get flow in
         await (setTimeout (pollInterval this)) ;;
         ret (Continue (attempts + 1))).

(** The [while (attempts < this.maxAttempts)] loop of [poll] and the [throw]
    after it; [None] when [fuel] turns do not finish it. *)
Fixpoint poll_loop (fuel : nat) (attempts : Z) : Async (option unit) :=
  match fuel with
  | O => ret None
  | S fuel' =>
      let* this := get flow in
      if attempts <? maxAttempts this then
        let* it := poll_iteration attempts in
        match it with
        | Continue attempts' => poll_loop fuel' attempts'
        | ReturnWith _ => ret (Some tt)
        end
      else
        throw (new_PRAutomatorError "Authentication timeout. Please try again."
                 None "AUTH_ERROR")
  end.

(** [async poll()] *)
Definition poll (fuel : nat) : Async (option unit) :=
  let* this := get flow in
  match truthy_string (deviceCode this), expiresAt this with
  | Some _, Some expires =>
      let* t := Date_now in
      if t >? expires then
        throw (new_PRAutomatorError "Device code expired" None "AUTH_ERROR")
      else poll_loop fuel 0
  | _, _ =>
      throw (new_PRAutomatorError
               "Device flow not initiated. Call initiate() first." None
               "AUTH_ERROR")
  end.

(** [async getToken()] *)
Definition getToken : Async string := TokenManager.getToken.

(** [async executeRequest<T>(request)] *)
Definition executeRequest {T} (request : string -> Async T) : Async T :=
  TokenManager.executeRequest request.

(** The request of [revoke]; its URL is an ordinary string literal in the
    source, so the text between the braces is sent as it is. *)
Definition revoke_request (token : string) : Request :=
  {| method := "DELETE";
     url := "https://api.github.com/applications/${this.clientId}/token";
     authorization := Some (Bearer token); body := [] |}.

(** The callback that [revoke] passes to [executeRequest]. *)
Definition revoke_callback (token : string) : Async unit :=
  let* response := await (fetch revoke_endpoint (revoke_request token)) in
  match response with
  | NotOk statusText _ =>
      throw (Error ("Token revocation failed: " +:+ statusText))
  | Ok _ => ret tt
  end.

(** [async revoke()] *)
Definition revoke : Async unit :=
  await (TokenManager.executeRequest revoke_callback).

End WithJson.
End DeviceFlow.

(** ** Calls issued concurrently *)

(** One step of a schedule for two pending calls: time passes, or the event
    loop resumes the first or the second of them for one turn. *)
Inductive Turn : Type :=
| Elapse (ms : N)
| First
| Second.

Fixpoint interleave {A B} (schedule : list Turn) (a : Task A) (b : Task B)
    (w : World) : Task A * Task B * World :=
  match schedule with
  | [] => (a, b, w)
  | Elapse ms :: rest => interleave rest a b (set_now (fun t => t + Z.of_N ms) w)
  | First :: rest =>
      interleave rest (fst (resume a w)) b (snd (resume a w))
  | Second :: rest =>
      interleave rest a (fst (resume b w)) (snd (resume b w))
  end.

(** Two calls [p := f(); q := g()] made one after the other in the same turn
    (each runs up to its first [await]), then scheduled by [schedule]. *)
Definition concurrently {A B} (f : Async A) (g : Async B)
    (schedule : list Turn) (w : World) : Task A * Task B * World :=
  interleave schedule (fst (f w)) (fst (g (snd (f w)))) (snd (g (snd (f w)))).

(** How often a schedule resumes each call. *)
Fixpoint turns_of_first (schedule : list Turn) : nat :=
  match schedule with
  | [] => O
  | First :: rest => S (turns_of_first rest)
  | _ :: rest => turns_of_first rest
  end.

Fixpoint turns_of_second (schedule : list Turn) : nat :=
  match schedule with
  | [] => O
  | Second :: rest => S (turns_of_second rest)
  | _ :: rest => turns_of_second rest
  end.

(** ** A reader and writer of the JSON texts of the token manager

    Used where an instance of [Json] is needed to run the code on concrete
    inputs: [stringify] writes a [TokenInfo] as [JSON.stringify] does when the
    strings need no escaping, and [parse] reads back exactly such texts
    (anything else is rejected, as a text that is not JSON is). *)

Module PlainJson.

Definition quote : string := String (ascii_of_nat 34) "".

Definition quoted (s : string) : string := quote +:+ s +:+ quote.

Definition member (key value : string) : string := quoted key +:+ ":" +:+ value.

Definition number (n : Z) : string := pretty n.

Definition stringify (t : TokenInfo) : string :=
  "{" +:+ member "access_token" (quoted (access_token t))
  +:+ match expires_at t with
      | Some e => "," +:+ member "expires_at" (number e)
      | None => ""
      end
  +:+ match refresh_token t with
      | Some r => "," +:+ member "refresh_token" (quoted r)
      | None => ""
      end
  +:+ "}".

Definition stringify_rate (r : RateLimitInfo) : string :=
  "{" +:+ member "limit" (number (limit r))
  +:+ "," +:+ member "remaining" (number (remaining r))
  +:+ "," +:+ member "reset" (number (reset r)) +:+ "}".

(** [s] without the prefix [p]. *)
Fixpoint strip (p s : string) : option string :=
  match p, s with
  | EmptyString, _ => Some s
  | String a p', String b s' => if decide (a = b) then strip p' s' else None
  | String _ _, EmptyString => None
  end.

(** The characters up to the next quote, and what follows the quote. *)
Fixpoint until_quote (s : string) : option (string * string) :=
  match s with
  | EmptyString => None
  | String a s' =>
      if decide (a = ascii_of_nat 34) then Some ("", s')
      else match until_quote s' with
           | Some (v, rest) => Some (String a v, rest)
           | None => None
           end
  end.

Definition digit (a : ascii) : option Z :=
  let n := Z.of_nat (nat_of_ascii a) in
  if (48 <=? n) && (n <=? 57) then Some (n - 48) else None.

(** The value of the leading digits after [acc], and what follows them. *)
Fixpoint digits (acc : Z) (s : string) : Z * string :=
  match s with
  | EmptyString => (acc, s)
  | String a s' =>
      match digit a with
      | Some d => digits (acc * 10 + d) s'
      | None => (acc, s)
      end
  end.

Definition read_refresh (s : string) : option (option string) :=
  match strip ("," +:+ member "refresh_token" quote) s with
  | Some s1 =>
      match until_quote s1 with
      | Some (r, "}") => Some (Some r)
      | _ => None
      end
  | None => if decide (s = "}") then Some None else None
  end.

Definition parse (s : string) : option TokenInfo :=
  match strip ("{" +:+ member "access_token" quote) s with
  | Some s1 =>
      match until_quote s1 with
      | Some (a, s2) =>
          match strip ("," +:+ member "expires_at" "") s2 with
          | Some s3 =>
              match s3 with
              | String c _ =>
                  match digit c with
                  | Some _ =>
                      let (e, s4) := digits 0 s3 in
                      match read_refresh s4 with
                      | Some r =>
                          Some {| access_token := a; expires_at := Some e;
                                  refresh_token := r |}
                      | None => None
                      end
                  | None => None
                  end
              | EmptyString => None
              end
          | None =>
              match read_refresh s2 with
              | Some r =>
                  Some {| access_token := a; expires_at := None;
                          refresh_token := r |}
              | None => None
              end
          end
      | None => None
      end
  | None => None
  end.

Definition json : Json :=
  {| JSON_parse := parse; JSON_stringify := stringify;
     JSON_stringify_rate := stringify_rate |}.

End PlainJson.

(** ** What a call amounts to when nothing else is scheduled

    Closed forms of [exec] for the methods of the token manager; each is
    proved equal to the run of the method below. *)

Module Reading.
Section WithJson.
Context `{J : Json}.
Import TokenManager.

(** The record [getStoredTokenInfo] finds. *)
Definition stored (w : World) : option TokenInfo :=
  match truthy_string (credentials w !! TOKEN_INFO_KEY) with
  | Some data => JSON_parse data
  | None => None
  end.

(** The record [storeToken] writes at time [t]. *)
Definition record_of (t : Z) (accessToken : string) (expiresIn : option Z)
    (refreshToken : option string) : TokenInfo :=
  {| access_token := accessToken;
     expires_at :=
       match truthy_number expiresIn with
       | Some e => Some (t + e * 1000)
       | None => None
       end;
     refresh_token := truthy_string refreshToken |}.

Definition stored_in (info : TokenInfo) (w : World) : World :=
  set_credentials (fun c => <[TOKEN_INFO_KEY := JSON_stringify info]> c) w.

(** Whether [shouldRefreshToken] says yes at time [t]. *)
Definition in_refresh_window (t : Z) (info : TokenInfo) : bool :=
  match truthy_number (expires_at info) with
  | Some expires => t + MIN_TOKEN_LIFETIME >? expires
  | None => false
  end.

(** The error of [refreshToken] when there is no refresh token. *)
Definition no_refresh_token : Exn :=
  PRAutomatorError "No refresh token available" "[object Object]" None.

(** The error of [refreshToken] when the refresh failed with [cause], of
    which it keeps nothing. *)
Definition failed_refresh (cause : Exn) : Exn :=
  PRAutomatorError "Failed to refresh token" "[object Object]" None.

(** The error of [getToken] when there is no stored record. *)
Definition no_token : Exn :=
  PRAutomatorError "No token available" "[object Object]" None.

(** The error of [executeRequest] when the callback hit the rate limit with
    [cause], of which it keeps nothing. *)
Definition rate_limit_exceeded (cause : Exn) : Exn :=
  PRAutomatorError "Rate limit exceeded" "[object Object]" None.

Definition refreshed (info : option TokenInfo) (w : World)
  : Outcome string * World :=
  match truthy_string (info ≫= refresh_token) with
  | None => (Throw no_refresh_token, w)
  | Some r =>
      let w1 := set_fetched (fun l => l ++ [refresh_request r]) w in
      match access_token_endpoint (server w) (fetched w ++ [refresh_request r]) with
      | Rejects e => (Throw (failed_refresh e), w1)
      | Resolves (NotOk statusText _) =>
          (Throw (failed_refresh (Error ("Token refresh failed: " +:+ statusText))),
           w1)
      | Resolves (Ok data) =>
          (Return (tr_access_token data),
           stored_in (record_of (now w) (tr_access_token data)
                        (tr_expires_in data) (tr_refresh_token data)) w1)
      end
  end.

Definition token_of (w : World) : Outcome string * World :=
  match stored w with
  | None => (Throw no_token, w)
  | Some info =>
      if in_refresh_window (now w) info then refreshed (Some info) w
      else (Return (access_token info), w)
  end.

(** What is left of the backoff delay when [waitForRateLimit] is called. *)
Definition backoff_left (w : World) : Z :=
  backoffDelay (manager w) - (now w - lastRequest (manager w)).

(** The time [waitForRateLimit] spends in its first timer. *)
Definition backoff_wait (w : World) : Z :=
  if 0 <? backoff_left w then timer_delay (backoff_left w) else 0.

(** What is left until the reset of the quota once the first timer is over,
    when a snapshot with [remaining = 0] is known. *)
Definition reset_left (w : World) : Z :=
  match rateLimitInfo (manager w) with
  | Some info =>
      if remaining info =? 0
      then reset info * 1000 - (now w + backoff_wait w)
      else 0
  | None => 0
  end.

(** The time [waitForRateLimit] spends in its second timer. *)
Definition rate_limit_wait (w : World) : Z :=
  if 0 <? reset_left w then timer_delay (reset_left w) else 0.

(** The whole time [waitForRateLimit] waits. *)
Definition total_wait (w : World) : Z := backoff_wait w + rate_limit_wait w.

(** The timers [waitForRateLimit] starts. *)
Definition waits (w : World) : list Z :=
  (if 0 <? backoff_left w then [backoff_left w] else []) ++
  (if 0 <? reset_left w then [reset_left w] else []).

Definition after_wait (w : World) : World :=
  set_manager (fun m => {| rateLimitInfo := rateLimitInfo m;
                           lastRequest := now w + total_wait w;
                           backoffDelay := backoffDelay m |})
    (set_now (fun _ => now w + total_wait w)
       (set_timeouts (fun l => l ++ waits w) w)).

Definition with_backoffDelay (f : Z -> Z) (w : World) : World :=
  set_manager (fun m => {| rateLimitInfo := rateLimitInfo m;
                           lastRequest := lastRequest m;
                           backoffDelay := f (backoffDelay m) |}) w.

(** [updateRateLimitInfo] *)
Definition rate_limit_updated (w : World) : World :=
  match token_of w with
  | (Throw _, w1) => w1
  | (Return token, w1) =>
      let w2 := set_fetched (fun l => l ++ [rate_limit_request token]) w1 in
      match rate_limit_endpoint (server w1)
              (fetched w1 ++ [rate_limit_request token]) with
      | Resolves (Ok data) =>
          set_credentials
            (fun c => <[RATE_LIMIT_KEY := JSON_stringify_rate data]> c)
            (set_manager (fun m => {| rateLimitInfo := Some data;
                                      lastRequest := lastRequest m;
                                      backoffDelay := backoffDelay m |}) w2)
      | _ => w2
      end
  end.

(** The [catch] block of [executeRequest]. *)
Definition caught {T} (request : string -> Async T) (error : Exn) (w : World)
  : Outcome T * World :=
  if isRateLimitError error then
    (Throw (rate_limit_exceeded error), with_backoffDelay (fun d => d * 2) w)
  else if isAuthError error then
    match refreshed (stored w) w with
    | (Return token, w') => exec (request token) w'
    | (Throw e, w') => (Throw e, w')
    end
  else (Throw error, w).

(** [executeRequest] *)
Definition requested {T} (request : string -> Async T) (w : World)
  : Outcome T * World :=
  match token_of (after_wait w) with
  | (Throw e, w2) => caught request e w2
  | (Return token, w2) =>
      match exec (request token) w2 with
      | (Throw e, w3) => caught request e w3
      | (Return result, w3) =>
          (Return result,
           rate_limit_updated (with_backoffDelay (fun _ => DEFAULT_BACKOFF) w3))
      end
  end.

End WithJson.
End Reading.

(** [n] calls of [executeRequest] in a row, each awaited before the next. *)
Fixpoint executeRequests `{J : Json} {T} (n : nat) (request : string -> Async T)
    (w : World) : World :=
  match n with
  | O => w
  | S n' =>
      executeRequests n' request
        (snd (exec (TokenManager.executeRequest request) w))
  end.

(** Closed forms for the polling loops of the two device-flow classes. *)

(** The world once a timer of [ms] has run out. *)
Definition slept (ms : Z) (w : World) : World :=
  set_now (fun t => t + timer_delay ms) (set_timeouts (fun l => l ++ [ms]) w).

(** The world once [req] has been sent. *)
Definition sent (req : Request) (w : World) : World :=
  set_fetched (fun l => l ++ [req]) w.

(** The token endpoint answers every request with [authorization_pending]. *)
Definition always_pending (srv : Server) : Prop :=
  forall history, exists statusText refused,
    access_token_endpoint srv history = Resolves (NotOk statusText refused)
    /\ error refused = "authorization_pending".

Module GitHubReading.
Import GitHubDeviceFlow.

Definition obtain_failed (cause : Exn) : Exn :=
  PRAutomatorError "auth"
    ("Failed to obtain access token: " +:+ message_text cause) (Some cause).

Definition max_attempts_reached : Exn :=
  PRAutomatorError "auth" "Max polling attempts reached. Please try again." None.

Definition revoke_failed (cause : Exn) : Exn :=
  PRAutomatorError "auth"
    ("Failed to revoke GitHub token: " +:+ message_text cause) (Some cause).

(** The error thrown inside the loop for a refusal other than
    [authorization_pending]. *)
Definition refusal (statusText : string) (refused : OAuthError) : Exn :=
  Error (default statusText (truthy_string (error_description refused))).

(** The [catch] block of the loop. *)
Definition swallowed (attempts : Z) (cause : Exn) (w : World)
  : Outcome (Iteration string) * World :=
  if attempts =? maxAttempts (flow w) - 1
  then (Throw (obtain_failed cause), w)
  else (Return (Continue attempts), w).

(** [poll_iteration] *)
Definition polled (attempts : Z) (w : World)
  : Outcome (Iteration string) * World :=
  let req := access_token_request (flow w) in
  match access_token_endpoint (server w) (fetched w ++ [req]) with
  | Rejects e => swallowed attempts e (sent req w)
  | Resolves (NotOk statusText refused) =>
      if decide (error refused = "authorization_pending")
      then (Return (Continue (attempts + 1)),
            slept (pollInterval (flow w)) (sent req w))
      else swallowed attempts (refusal statusText refused) (sent req w)
  | Resolves (Ok data) =>
      (Return (ReturnWith (tr_access_token data)),
       set_credentials (fun c => <["github_token" := tr_access_token data]> c)
         (sent req w))
  end.

(** The fields of the flow after [initiate] got [data] at time [t]. *)
Definition initiated_fields (t : Z) (data : DeviceCodeResponse)
    (this : DeviceFlowFields) : DeviceFlowFields :=
  {| clientId := clientId this; scopes := scopes this;
     deviceCode := Some (device_code data);
     pollInterval := interval data * 1000;
     maxAttempts := maxAttempts this;
     expiresAt := Some (t + expires_in data * 1000) |}.

(** [revoke] *)
Definition revoked (w : World) : Outcome unit * World :=
  match truthy_string (credentials w !! "github_token") with
  | None => (Return tt, w)
  | Some token =>
      let req := revoke_request (flow w) token in
      match revoke_endpoint (server w) (fetched w ++ [req]) with
      | Rejects e => (Throw (revoke_failed e), sent req w)
      | Resolves (NotOk statusText _) =>
          (Throw (revoke_failed (Error ("Failed to revoke token: " +:+ statusText))),
           sent req w)
      | Resolves (Ok _) =>
          (Return tt,
           set_credentials (fun c => delete "github_token" c) (sent req w))
      end
  end.

(** The world after [n] turns of the loop that all met
    [authorization_pending]. *)
Fixpoint pending_turns (n : nat) (w : World) : World :=
  match n with
  | O => w
  | S n' =>
      pending_turns n'
        (slept (pollInterval (flow w)) (sent (access_token_request (flow w)) w))
  end.

End GitHubReading.

(** ** [getToken] as an automaton

    The task that a call of [getToken] leaves behind at each of its [await]s,
    written out: what resuming it does to the world and what it becomes. *)

(** Two tasks that do the same at every resumption. *)
Inductive sim {A} : Task A -> Task A -> Prop :=
| sim_done o : sim (Done o) (Done o)
| sim_susp u1 n1 u2 n2 :
    (forall w, u1 w = u2 w) -> (forall w, sim (n1 w) (n2 w)) ->
    sim (Susp u1 n1) (Susp u2 n2).

Module Automaton.
Section WithJson.
Context `{J : Json}.
Import TokenManager Reading.

(** [refreshToken] waits for [storeToken]. *)
Definition awaiting_storeToken (data : TokenResponse) : Task string :=
  Susp (fun w => w) (fun _ => Done (Return (tr_access_token data))).

(** [storeToken] waits for [vault.set]. *)
Definition awaiting_vault_set (data : TokenResponse) : Task string :=
  Susp (fun w => w) (fun _ => awaiting_storeToken data).

(** [vault.set] waits for [save]. *)
Definition awaiting_save (data : TokenResponse) : Task string :=
  Susp (fun w => w) (fun _ => awaiting_vault_set data).

(** [save] waits for [writeFile]. *)
Definition awaiting_writeFile (data : TokenResponse) : Task string :=
  Susp (fun w => w) (fun _ => awaiting_save data).

(** [save] waits for [mkdir]; the new record is already in the vault. *)
Definition awaiting_mkdir (data : TokenResponse) : Task string :=
  Susp (fun w => w) (fun _ => awaiting_writeFile data).

(** [refreshToken] waits for [response.json()]; when it goes on it calls
    [storeToken], which calls [vault.set], which writes the new record and
    calls [save]. *)
Definition awaiting_json (data : TokenResponse) : Task string :=
  Susp (fun w => stored_in (record_of (now w) (tr_access_token data)
                              (tr_expires_in data) (tr_refresh_token data)) w)
       (fun _ => awaiting_mkdir data).

(** [refreshToken] waits for the response to its request. *)
Definition awaiting_fetch (response : Response TokenResponse OAuthError)
  : Task string :=
  Susp (fun w => w)
       (fun _ => match response with
                 | Ok data => awaiting_json data
                 | NotOk statusText _ =>
                     Done (Throw (failed_refresh
                                    (Error ("Token refresh failed: " +:+ statusText))))
                 end).

(** [getToken] waits for [shouldRefreshToken], which has answered [refresh];
    when it goes on with [true] it calls [refreshToken], which sends the
    refresh request. *)
Definition awaiting_shouldRefreshToken (info : TokenInfo) (refresh : bool)
  : Task string :=
  if refresh then
    match truthy_string (refresh_token info) with
    | None => Susp (fun w => w) (fun _ => Done (Throw no_refresh_token))
    | Some r =>
        Susp (sent (refresh_request r))
             (fun w =>
                match access_token_endpoint (server w)
                        (fetched w ++ [refresh_request r]) with
                | Rejects e => Done (Throw (failed_refresh e))
                | Resolves response => awaiting_fetch response
                end)
    end
  else Susp (fun w => w) (fun _ => Done (Return (access_token info))).

(** [getToken] waits for [getStoredTokenInfo], which has read [info]; when it
    goes on it calls [shouldRefreshToken], which reads the clock. *)
Definition awaiting_getStoredTokenInfo (info : option TokenInfo) : Task string :=
  Susp (fun w => w)
       (fun w => match info with
                 | None => Done (Throw no_token)
                 | Some info =>
                     awaiting_shouldRefreshToken info
                       (in_refresh_window (now w) info)
                 end).

(** *** Two calls of [getToken] that both have to refresh *)

(** The situation of the single-flight claim: at the time of the calls the
    stored record [info] is within the refresh window and has the refresh
    token [r]; the token endpoint grants [first] to the first refresh request
    and [second] to the second. *)
Record Refreshable (w0 : World) (info : TokenInfo) (r : string)
    (first second : TokenResponse) : Prop := {
  refreshable_stored : stored w0 = Some info;
  refreshable_window : in_refresh_window (now w0) info = true;
  refreshable_token : truthy_string (refresh_token info) = Some r;
  refreshable_first :
    access_token_endpoint (server w0) (fetched w0 ++ [refresh_request r])
    = Resolves (Ok first);
  refreshable_second :
    access_token_endpoint (server w0)
      (fetched w0 ++ [refresh_request r; refresh_request r])
    = Resolves (Ok second)
}.

(** Where a call that refreshes stands. *)
Inductive Stage : Type :=
| AtStored
| AtShould
| AtFetch (data : TokenResponse)
| AtJson (data : TokenResponse)
| AtMkdir (data : TokenResponse)
| AtWriteFile (data : TokenResponse)
| AtSave (data : TokenResponse)
| AtSet (data : TokenResponse)
| AtStore (data : TokenResponse)
| Settled (data : TokenResponse).

Definition task_at (info : TokenInfo) (s : Stage) : Task string :=
  match s with
  | AtStored => awaiting_getStoredTokenInfo (Some info)
  | AtShould => awaiting_shouldRefreshToken info true
  | AtFetch data => awaiting_fetch (Ok data)
  | AtJson data => awaiting_json data
  | AtMkdir data => awaiting_mkdir data
  | AtWriteFile data => awaiting_writeFile data
  | AtSave data => awaiting_save data
  | AtSet data => awaiting_vault_set data
  | AtStore data => awaiting_storeToken data
  | Settled data => Done (Return (tr_access_token data))
  end.

(** The number of resumptions behind a stage. *)
Definition rank (s : Stage) : nat :=
  match s with
  | AtStored => 0
  | AtShould => 1
  | AtFetch _ => 2
  | AtJson _ => 3
  | AtMkdir _ => 4
  | AtWriteFile _ => 5
  | AtSave _ => 6
  | AtSet _ => 7
  | AtStore _ => 8
  | Settled _ => 9
  end.

(** The response a call has received to its refresh request, if it has sent
    it. *)
Definition granted (s : Stage) : option TokenResponse :=
  match s with
  | AtStored | AtShould => None
  | AtFetch d | AtJson d | AtMkdir d | AtWriteFile d | AtSave d | AtSet d
  | AtStore d | Settled d => Some d
  end.

(** What holds of the world while the two calls are at stages [a] and [b]. *)
Definition Consistent (w0 : World) (r : string) (first second : TokenResponse)
    (a b : Stage) (w : World) : Prop :=
  now w0 <= now w /\ server w = server w0 /\
  match granted a, granted b with
  | None, None => fetched w = fetched w0
  | Some d, None | None, Some d =>
      d = first /\ fetched w = fetched w0 ++ [refresh_request r]
  | Some da, Some db =>
      fetched w = fetched w0 ++ [refresh_request r; refresh_request r]
      /\ ((da = first /\ db = second) \/ (da = second /\ db = first))
  end.

(** The stage a call at stage [a] is at after its next resumption, the other
    call being at stage [b]: a call that sends its request gets the first
    response when the other call has not sent its request yet, and the
    second otherwise. *)
Definition next_stage (first second : TokenResponse) (a b : Stage) : Stage :=
  match a with
  | AtStored => AtShould
  | AtShould =>
      AtFetch match granted b with
              | None => first
              | Some _ => second
              end
  | AtFetch d => AtJson d
  | AtJson d => AtMkdir d
  | AtMkdir d => AtWriteFile d
  | AtWriteFile d => AtSave d
  | AtSave d => AtSet d
  | AtSet d => AtStore d
  | AtStore d => Settled d
  | Settled d => Settled d
  end.

(** The stages of the two calls after a schedule. *)
Fixpoint stages_after (first second : TokenResponse) (schedule : list Turn)
    (a b : Stage) : Stage * Stage :=
  match schedule with
  | [] => (a, b)
  | Elapse _ :: rest => stages_after first second rest a b
  | First :: rest => stages_after first second rest (next_stage first second a b) b
  | Second :: rest => stages_after first second rest a (next_stage first second b a)
  end.

End WithJson.
End Automaton.

(** The call whose refresh request goes out first under a schedule.  A call
    of [getToken] that has to refresh sends its request when it is resumed
    for the second time, after the [await]s of [getStoredTokenInfo] and of
    [shouldRefreshToken]; [ka] and [kb] are the resumptions the two calls
    have had so far. *)
Fixpoint first_request (ka kb : nat) (schedule : list Turn) : option Turn :=
  match schedule with
  | [] => None
  | Elapse _ :: rest => first_request ka kb rest
  | First :: rest =>
      if (ka =? 1)%nat then Some First else first_request (S ka) kb rest
  | Second :: rest =>
      if (kb =? 1)%nat then Some Second else first_request ka (S kb) rest
  end.

(** The number of refresh requests that are out under a schedule. *)
Definition requests_out (schedule : list Turn) : nat :=
  (if (2 <=? turns_of_first schedule)%nat then 1 else 0)
  + (if (2 <=? turns_of_second schedule)%nat then 1 else 0).

(** ** Concrete servers and worlds *)

Module Sample.

(** A server that cannot be reached. *)
Definition offline : Server :=
  {| device_code_endpoint := fun _ => Rejects (Error "fetch failed");
     access_token_endpoint := fun _ => Rejects (Error "fetch failed");
     rate_limit_endpoint := fun _ => Rejects (Error "fetch failed");
     user_endpoint := fun _ => Rejects (Error "fetch failed");
     revoke_endpoint := fun _ => Rejects (Error "fetch failed") |}.

(** A world at time [t] with the given server and vault, a new manager and a
    new device flow for client id [Iv1.abc]. *)
Definition world (srv : Server) (t : Z) (vault : gmap string string) : World :=
  {| now := t; credentials := vault; server := srv; fetched := [];
     timeouts := []; calls := []; manager := TokenManager.fresh;
     flow := GitHubDeviceFlow.fresh "Iv1.abc" ["repo"] |}.

(** The vault after [storeToken] wrote [info]. *)
Definition vault_with (info : TokenInfo) : gmap string string :=
  {[ TokenManager.TOKEN_INFO_KEY := PlainJson.stringify info ]}.

End Sample.

Module Scenario.
Import Sample.

(** *** Rate-limit waits *)

(** A manager that made its last request at 999400 with the base backoff and
    was told that no quota remains until second 1000; the time is 999500. *)
Definition quota_exhausted : World :=
  set_manager (fun _ =>
    {| rateLimitInfo := Some {| limit := 5000; remaining := 0; reset := 1000 |};
       lastRequest := 999400; backoffDelay := 1000 |})
    (world offline 999500 ∅).

(** *** Requests *)

(** The stored record of the tests: valid for another hour. *)
Definition valid_record (t : Z) : TokenInfo :=
  {| access_token := "old-token"; expires_at := Some (t + 3600000);
     refresh_token := Some "refresh-token" |}.

Definition new_tokens : TokenResponse :=
  {| tr_access_token := "new-token";
     tr_refresh_token := Some "new-refresh-token";
     tr_expires_in := Some 3600 |}.

(** A server whose token endpoint grants [new_tokens] to every request. *)
Definition refreshing : Server :=
  {| device_code_endpoint := device_code_endpoint offline;
     access_token_endpoint := fun _ => Resolves (Ok new_tokens);
     rate_limit_endpoint := rate_limit_endpoint offline;
     user_endpoint := user_endpoint offline;
     revoke_endpoint := revoke_endpoint offline |}.

Definition unauthorized : Exn := Rejection (Some 401) None.
Definition server_error : Exn := Rejection (Some 500) (Some "Internal Server Error").
Definition too_many_requests : Exn := Rejection (Some 429) None.

(** A callback that fails with a 401 for the old token and succeeds for any
    other. *)
Definition rejects_old_token (token : string) : Async string :=
  if decide (token = "old-token") then throw unauthorized else ret "success".

(** A callback that fails with a 401 for the old token and with a 500 for any
    other. *)
Definition fails_twice (token : string) : Async string :=
  if decide (token = "old-token") then throw unauthorized else throw server_error.

(** A callback that always hits the rate limit. *)
Definition always_limited (token : string) : Async string :=
  throw too_many_requests.

(** A token that never expires, as [storeToken] writes it. *)
Definition classic_token : TokenInfo :=
  {| access_token := "ghp_classic"; expires_at := None; refresh_token := None |}.

(** The world of the retry test: the record is valid for another hour and the
    token endpoint grants new tokens. *)
Definition retry_world : World := world refreshing 0 (vault_with (valid_record 0)).

(** A world whose stored token never expires. *)
Definition classic_world : World := world offline 0 (vault_with classic_token).

End Scenario.

Module FlowScenario.
Import Sample.

(** The device-code response of the tests. *)
Definition device_code_granted : DeviceCodeResponse :=
  {| device_code := "d1"; user_code := "U1";
     verification_uri := "https://x/device"; expires_in := 900; interval := 5 |}.

Definition refused_with (code : string) : OAuthError :=
  {| error := code; error_description := None |}.

Definition granted : TokenResponse :=
  {| tr_access_token := "gho_mock123"; tr_refresh_token := None;
     tr_expires_in := None |}.

(** A server that grants the device code and answers the [n]-th request it
    sees (counting the device-code request) as [token_reply n] on its token
    endpoint. *)
Definition scripted
    (token_reply : nat -> Fetched TokenResponse OAuthError) : Server :=
  {| device_code_endpoint := fun _ => Resolves (Ok device_code_granted);
     access_token_endpoint := fun history => token_reply (length history);
     rate_limit_endpoint := rate_limit_endpoint offline;
     user_endpoint := user_endpoint offline;
     revoke_endpoint := fun _ => Resolves (NotOk "Unauthorized" tt) |}.

Definition pending : Fetched TokenResponse OAuthError :=
  Resolves (NotOk "Bad Request" (refused_with "authorization_pending")).

(** The user never authorizes. *)
Definition never_authorized : Server := scripted (fun _ => pending).



(** The world in which [poll] starts right after [initiate]. *)
Definition initiated_with (srv : Server) : World :=
  snd (exec GitHubDeviceFlow.initiate (world srv 1000 ∅)).

End FlowScenario.

Module RaceScenario.
Import Sample.

(** The stored record of the refresh test: one minute left at time [t]. *)
Definition expiring_record (t : Z) : TokenInfo :=
  {| access_token := "old-token"; expires_at := Some (t + 60000);
     refresh_token := Some "refresh-token" |}.

Definition tokens (name : string) : TokenResponse :=
  {| tr_access_token := name; tr_refresh_token := Some "new-refresh-token";
     tr_expires_in := Some 3600 |}.

(** A token endpoint that grants [new-token-1] to the first request it sees
    and [new-token-2] to every later one. *)
Definition rotating : Server :=
  {| device_code_endpoint := device_code_endpoint offline;
     access_token_endpoint := fun history =>
       if (length history <=? 1)%nat
       then Resolves (Ok (tokens "new-token-1"))
       else Resolves (Ok (tokens "new-token-2"));
     rate_limit_endpoint := rate_limit_endpoint offline;
     user_endpoint := user_endpoint offline;
     revoke_endpoint := revoke_endpoint offline |}.

Definition racing_world : World :=
  world rotating 1000000 (vault_with (expiring_record 1000000)).

(** The two calls take turns. *)
Definition alternating : list Turn :=
  [First; Second; First; Second; First; Second; First; Second;
   First; Second; First; Second; First; Second; First; Second;
   First; Second].

End RaceScenario.

(** ** Servers, as the further properties need them *)

(** The token endpoint answers [authorization_pending] to the first [k]
    requests [req] sent after [base], and grants [data] to the next one. *)
Definition pending_then_granted (srv : Server) (base : list Request)
    (req : Request) (k : nat) (data : TokenResponse) : Prop :=
  (forall i, (i < k)%nat ->
     exists statusText refused,
       access_token_endpoint srv (base ++ replicate (S i) req)
       = Resolves (NotOk statusText refused)
       /\ error refused = "authorization_pending")
  /\ access_token_endpoint srv (base ++ replicate (S k) req) = Resolves (Ok data).

(** The token endpoint refuses every request with an error code other than
    [authorization_pending]. *)
Definition always_refused (srv : Server) : Prop :=
  forall history, exists statusText refused,
    access_token_endpoint srv history = Resolves (NotOk statusText refused)
    /\ error refused <> "authorization_pending".

(** The token endpoint never answers [ok]: every request gets a response that
    is not [ok], or is rejected with something that is not a
    [PRAutomatorError]. *)
Definition never_ok (srv : Server) : Prop :=
  forall history,
    (exists statusText refused,
       access_token_endpoint srv history = Resolves (NotOk statusText refused))
    \/ (exists status message,
          access_token_endpoint srv history = Rejects (Rejection status message)).

Module GitHubErrors.

Definition not_initiated : Exn :=
  PRAutomatorError "auth" "Device flow not initiated. Call initiate() first." None.

Definition expired : Exn :=
  PRAutomatorError "auth" "Device code has expired. Please initiate a new flow."
    None.

Definition initiate_failed (cause : Exn) : Exn :=
  PRAutomatorError "auth"
    ("Failed to initiate GitHub device flow: " +:+ message_text cause)
    (Some cause).

End GitHubErrors.

Module DeviceFlowErrors.

(** The errors of device-flow.ts, as the class builds them from the
    arguments it is given there: the text is the [type], the message is the
    options object as a string, and nothing of the options is kept. *)

Definition timeout : Exn :=
  PRAutomatorError "Authentication timeout. Please try again."
    "[object Object]" None.

Definition invalid_token : Exn :=
  PRAutomatorError "Invalid access token" "[object Object]" None.

Definition initiate_failed : Exn :=
  PRAutomatorError "Failed to initiate device flow" "[object Object]" None.

Definition expired : Exn :=
  PRAutomatorError "Device code expired" "[object Object]" None.

Definition not_initiated : Exn :=
  PRAutomatorError "Device flow not initiated. Call initiate() first."
    "[object Object]" None.

End DeviceFlowErrors.

(** The world after [n] requests [req], each followed by a timer of [ms]. *)
Fixpoint waited_turns (n : nat) (req : Request) (ms : Z) (w : World) : World :=
  match n with
  | O => w
  | S n' => waited_turns n' req ms (slept ms (sent req w))
  end.

(** A step that removes no key from the vault. *)
Definition keeps_keys (w w' : World) : Prop :=
  forall key, is_Some (credentials w !! key) -> is_Some (credentials w' !! key).

(** ** Further concrete servers and worlds *)

Module MoreScenario.
Import Sample FlowScenario.

(** A record with one minute left at time [t] and no refresh token. *)
Definition stale_record (t : Z) : TokenInfo :=
  {| access_token := "old-token"; expires_at := Some (t + 60000);
     refresh_token := None |}.

(** Two times [authorization_pending], then the token. *)
Definition granted_after_two : Server :=
  scripted (fun n => if (n <=? 3)%nat then pending else Resolves (Ok granted)).

(** The user has denied the request: every token request is refused with
    [access_denied]. *)
Definition always_denied : Server :=
  scripted (fun _ =>
    Resolves (NotOk "Bad Request" (refused_with "access_denied"))).

(** A server that grants the device code, grants the tokens of the tests to
    every token request, confirms every revocation, and whose user endpoint
    answers [reply]. *)
Definition verifying (reply : Fetched unit unit) : Server :=
  {| device_code_endpoint := fun _ => Resolves (Ok device_code_granted);
     access_token_endpoint := fun _ => Resolves (Ok Scenario.new_tokens);
     rate_limit_endpoint := rate_limit_endpoint offline;
     user_endpoint := fun _ => reply;
     revoke_endpoint := fun _ => Resolves (Ok tt) |}.

(** The options given to the constructor of device-flow.ts: three attempts,
    five seconds apart. *)
Definition options : DeviceFlow.DeviceFlowOptions :=
  {| DeviceFlow.opt_clientId := "Iv1.abc"; DeviceFlow.opt_scopes := None;
     DeviceFlow.opt_maxAttempts := Some 3;
     DeviceFlow.opt_pollInterval := Some 5 |}.

(** A world with a new flow of device-flow.ts. *)
Definition deviceflow_world (srv : Server) (t : Z) (vault : gmap string string)
  : World :=
  set_flow (fun _ => DeviceFlow.fresh options) (world srv t vault).

(** The world in which [poll] of device-flow.ts starts right after
    [initiate]. *)
Definition deviceflow_initiated (srv : Server) : World :=
  snd (exec DeviceFlow.initiate (deviceflow_world srv 1000 ∅)).

(** A callback that succeeds. *)
Definition succeeds (token : string) : Async string := ret "success".

(** A callback that fails with a 500. *)
Definition fails (token : string) : Async string := throw Scenario.server_error.

End MoreScenario.
(** * Properties *)

(** ** The JSON texts of the examples *)

Example plain_json_text :
  PlainJson.stringify
    {| access_token := "t1"; expires_at := Some 3600000;
       refresh_token := Some "r1" |}
  = "{" +:+ PlainJson.quoted "access_token" +:+ ":" +:+ PlainJson.quoted "t1"
    +:+ "," +:+ PlainJson.quoted "expires_at" +:+ ":3600000"
    +:+ "," +:+ PlainJson.quoted "refresh_token" +:+ ":" +:+ PlainJson.quoted "r1"
    +:+ "}".
Proof. vm_compute. reflexivity. Qed.

Example plain_json_roundtrip :
  PlainJson.parse
    (PlainJson.stringify
       {| access_token := "t1"; expires_at := Some 3600000;
          refresh_token := Some "r1" |})
  = Some {| access_token := "t1"; expires_at := Some 3600000;
            refresh_token := Some "r1" |}
  /\ PlainJson.parse
       (PlainJson.stringify
          {| access_token := "t1"; expires_at := None; refresh_token := None |})
     = Some {| access_token := "t1"; expires_at := None; refresh_token := None |}
  /\ PlainJson.parse "not json" = None.
Proof. vm_compute. auto. Qed.

(** ** The sequential meaning of the combinators *)

Section ExecLaws.
Context {A B : Type}.

Lemma run_bindT (t : Task A) (f : A -> Async B) (w : World) :
  run (fst (bindT t f w)) (snd (bindT t f w)) =
  match run t w with
  | (Return a, w') => exec (f a) w'
  | (Throw e, w') => (Throw e, w')
  end.
Proof.
  revert w. induction t as [[a | e] | upd next IH]; intros w; cbn; auto.
Qed.

Lemma run_catchT (t : Task A) (h : Exn -> Async A) (w : World) :
  run (fst (catchT t h w)) (snd (catchT t h w)) =
  match run t w with
  | (Return a, w') => (Return a, w')
  | (Throw e, w') => exec (h e) w'
  end.
Proof.
  revert w. induction t as [[a | e] | upd next IH]; intros w; cbn; auto.
Qed.

Lemma exec_ret (a : A) (w : World) : exec (ret a) w = (Return a, w).
Proof. reflexivity. Qed.

Lemma exec_throw (e : Exn) (w : World) : exec (@throw A e) w = (Throw e, w).
Proof. reflexivity. Qed.

Lemma exec_get (f : World -> A) (w : World) : exec (get f) w = (Return (f w), w).
Proof. reflexivity. Qed.

Lemma exec_bind (m : Async A) (f : A -> Async B) (w : World) :
  exec (bind m f) w =
  match exec m w with
  | (Return a, w') => exec (f a) w'
  | (Throw e, w') => (Throw e, w')
  end.
Proof. unfold exec at 1, bind. apply run_bindT. Qed.

Lemma exec_try_catch (m : Async A) (h : Exn -> Async A) (w : World) :
  exec (try_catch m h) w =
  match exec m w with
  | (Return a, w') => (Return a, w')
  | (Throw e, w') => exec (h e) w'
  end.
Proof. unfold exec at 1, try_catch. apply run_catchT. Qed.

End ExecLaws.

Lemma exec_await {A} (m : Async A) (w : World) : exec (await m) w = exec m w.
Proof.
  unfold await. rewrite exec_bind.
  destruct (exec m w) as [[a | e] w']; reflexivity.
Qed.

Lemma exec_modify (f : World -> World) (w : World) :
  exec (modify f) w = (Return tt, f w).
Proof. reflexivity. Qed.

Lemma exec_setTimeout (ms : Z) (w : World) :
  exec (setTimeout ms) w =
  (Return tt,
   set_now (fun t => t + timer_delay ms) (set_timeouts (fun l => l ++ [ms]) w)).
Proof. reflexivity. Qed.

Lemma exec_fetch {A E} (endpoint : Server -> list Request -> Fetched A E)
    (req : Request) (w : World) :
  exec (fetch endpoint req) w =
  (match endpoint (server w) (fetched w ++ [req]) with
   | Rejects e => Throw e
   | Resolves r => Return r
   end, set_fetched (fun l => l ++ [req]) w).
Proof.
  unfold exec, fetch. cbn.
  destruct (endpoint (server w) (fetched w ++ [req])); reflexivity.
Qed.

Lemma exec_vault_set (key value : string) (w : World) :
  exec (vault_set key value) w =
  (Return tt, set_credentials (fun c => <[key := value]> c) w).
Proof. reflexivity. Qed.

Lemma exec_vault_remove (key : string) (w : World) :
  exec (vault_remove key) w =
  (Return tt, set_credentials (fun c => delete key c) w).
Proof. reflexivity. Qed.

Create Rewrite HintDb exec_db.
#[export] Hint Rewrite @exec_bind @exec_await @exec_try_catch @exec_ret
  @exec_throw @exec_get exec_modify exec_setTimeout @exec_fetch
  exec_vault_set exec_vault_remove : exec_db.

Ltac exec_simpl := repeat (autorewrite with exec_db; cbn [fst snd]).

(** Two worlds are equal when their fields are. *)
Lemma world_ext (w1 w2 : World) :
  now w1 = now w2 -> credentials w1 = credentials w2 -> server w1 = server w2 ->
  fetched w1 = fetched w2 -> timeouts w1 = timeouts w2 -> calls w1 = calls w2 ->
  manager w1 = manager w2 -> flow w1 = flow w2 -> w1 = w2.
Proof. destruct w1, w2; cbn; intros; subst; reflexivity. Qed.

Lemma manager_ext (m1 m2 : TokenManagerFields) :
  rateLimitInfo m1 = rateLimitInfo m2 -> lastRequest m1 = lastRequest m2 ->
  backoffDelay m1 = backoffDelay m2 -> m1 = m2.
Proof. destruct m1, m2; cbn; intros; subst; reflexivity. Qed.

Ltac split_Z_tests :=
  repeat match goal with
  | |- context [Z.ltb ?a ?b] => destruct (Z.ltb_spec a b)
  | |- context [Z.gtb ?a ?b] => destruct (Z.gtb_spec a b)
  | |- context [Z.eqb ?a ?b] => destruct (Z.eqb_spec a b)
  end.

Ltac same_list :=
  rewrite <- ?app_assoc, ?app_nil_r; cbn;
  repeat first [reflexivity | lia | f_equal].

Ltac same_world :=
  first [reflexivity |
    f_equal; apply world_ext; cbn;
    first [reflexivity | lia | apply manager_ext; cbn; first [reflexivity | lia]
          | same_list]].

(** ** The delay of a timer *)

Lemma timer_delay_in_range (ms : Z) :
  1 <= ms -> ms <= TIMEOUT_MAX -> timer_delay ms = ms.
Proof.
  intros H1 H2. unfold timer_delay.
  destruct (Z.leb_spec 1 ms); [|lia].
  destruct (Z.leb_spec ms TIMEOUT_MAX); [reflexivity|lia].
Qed.

Lemma timer_delay_positive (ms : Z) : 1 <= timer_delay ms.
Proof.
  unfold timer_delay.
  destruct (Z.leb_spec 1 ms); [|cbn; lia].
  destruct (Z.leb_spec ms TIMEOUT_MAX); cbn; lia.
Qed.

(** ** The token manager, run alone *)

Section TokenManagerRuns.
Context `{J : Json}.
Import TokenManager Reading.

Lemma exec_getStoredTokenInfo (w : World) :
  exec getStoredTokenInfo w = (Return (stored w), w).
Proof.
  unfold getStoredTokenInfo, stored, vault_get. exec_simpl.
  destruct (truthy_string _); [|reflexivity].
  destruct (JSON_parse _); reflexivity.
Qed.

Lemma exec_shouldRefreshToken (info : TokenInfo) (w : World) :
  exec (shouldRefreshToken info) w = (Return (in_refresh_window (now w) info), w).
Proof.
  unfold shouldRefreshToken, in_refresh_window.
  destruct (truthy_number _); exec_simpl; reflexivity.
Qed.

Lemma exec_storeToken (a : string) (e : option Z) (r : option string) (w : World) :
  exec (storeToken a e r) w = (Return tt, stored_in (record_of (now w) a e r) w).
Proof. unfold storeToken, Date_now. exec_simpl. reflexivity. Qed.

Lemma exec_refreshToken (arg : option TokenInfo) (w : World) :
  exec (refreshToken arg) w =
  refreshed (match arg with Some t => Some t | None => stored w end) w.
Proof.
  unfold refreshToken, refreshed. rewrite exec_bind.
  assert (Harg : exec (match arg with
                       | Some t => ret (Some t)
                       | None => await getStoredTokenInfo
                       end) w
                 = (Return (match arg with Some t => Some t | None => stored w end), w)).
  { destruct arg; [reflexivity|]. rewrite exec_await. apply exec_getStoredTokenInfo. }
  rewrite Harg. clear Harg.
  destruct (truthy_string _) as [r|]; [|reflexivity].
  exec_simpl.
  destruct (access_token_endpoint _ _) as [e | [data | st err]]; exec_simpl;
    reflexivity.
Qed.

Lemma exec_getToken (w : World) : exec getToken w = token_of w.
Proof.
  unfold getToken, token_of. exec_simpl. rewrite exec_getStoredTokenInfo.
  destruct (stored w) as [info|]; [|reflexivity].
  exec_simpl. rewrite exec_shouldRefreshToken.
  destruct (in_refresh_window _ _); [|reflexivity].
  apply exec_refreshToken.
Qed.

Lemma exec_waitForRateLimit (w : World) :
  exec waitForRateLimit w = (Return tt, after_wait w).
Proof.
  unfold waitForRateLimit, Date_now, set_lastRequest.
  destruct w as [t c s f ts cs [rl last bo] fl].
  unfold after_wait, waits, total_wait, rate_limit_wait, reset_left,
    backoff_wait, backoff_left.
  cbn -[timer_delay]. exec_simpl. cbn -[timer_delay].
  destruct (Z.ltb_spec (t - last) bo) as [Hb|Hb]; exec_simpl;
    cbn -[timer_delay];
    (destruct rl as [info|]; exec_simpl; cbn -[timer_delay];
     [destruct (Z.eqb_spec (remaining info) 0) as [Hr|Hr]; exec_simpl;
      cbn -[timer_delay];
      [match goal with |- context [Z.gtb ?a ?b] =>
         destruct (Z.gtb_spec a b) end; exec_simpl; cbn -[timer_delay]|]|]);
    split_Z_tests; try lia.
  all: f_equal; apply world_ext; cbn -[timer_delay].
  all: try reflexivity.
  all: rewrite ?Z.add_0_r, ?Z.add_0_l, <- ?app_assoc, ?app_nil_r.
  all: try reflexivity.
  all: try lia.
  all: apply manager_ext; cbn -[timer_delay];
    rewrite ?Z.add_0_r, ?Z.add_0_l; first [reflexivity | lia].
Qed.

Lemma exec_updateRateLimitInfo (w : World) :
  exec updateRateLimitInfo w = (Return tt, rate_limit_updated w).
Proof.
  unfold updateRateLimitInfo, rate_limit_updated, set_rateLimitInfo.
  exec_simpl. rewrite exec_getToken.
  destruct (token_of w) as [[token | e] w1]; exec_simpl; [|reflexivity].
  destruct (rate_limit_endpoint _ _) as [e | [data | st err]]; exec_simpl;
    reflexivity.
Qed.

Lemma exec_caught {T} (request : string -> Async T) (error : Exn) (w : World) :
  exec (if isRateLimitError error then
          set_backoffDelay (fun d => d * 2) ;;
          throw (new_PRAutomatorError "Rate limit exceeded" (Some error)
                   "RATE_LIMIT")
        else if isAuthError error then
          let* token := await (refreshToken None) in
          request token
        else throw error) w
  = caught request error w.
Proof.
  unfold caught. destruct (isRateLimitError error).
  - unfold set_backoffDelay. exec_simpl. reflexivity.
  - destruct (isAuthError error); [|reflexivity].
    exec_simpl. rewrite exec_refreshToken.
    destruct (refreshed _ _) as [[token | e] w']; reflexivity.
Qed.

Lemma exec_executeRequest {T} (request : string -> Async T) (w : World) :
  exec (executeRequest request) w = requested request w.
Proof.
  unfold executeRequest, requested.
  rewrite exec_bind, exec_await, exec_waitForRateLimit.
  rewrite exec_try_catch, exec_bind, exec_await, exec_getToken.
  destruct (token_of (after_wait w)) as [[token | e] w2].
  - rewrite exec_bind, exec_await.
    destruct (exec (request token) w2) as [[result | e] w3].
    + unfold set_backoffDelay. exec_simpl. rewrite exec_updateRateLimitInfo.
      reflexivity.
    + apply exec_caught.
  - apply exec_caught.
Qed.

End TokenManagerRuns.

(** ** Reading and writing the stored record *)

Section StoredRecord.
Context `{J : Json}.
Import TokenManager Reading.

(** C9. When the vault holds under the token key a text that [JSON.parse]
    rejects, [getToken] throws its no-token error and leaves the world as it
    is (no parse error escapes, no request is made), which is what it does
    when the key is absent.  The no-token error is the one the class builds
    from the text "No token available": the text is its [type] and its
    message is the options object as a string. *)
Theorem getToken_corrupted_record (w : World) (data : string)
    (Hheld : credentials w !! TOKEN_INFO_KEY = Some data)
    (Hcorrupt : JSON_parse data = None) :
  exec getToken w = (Throw no_token, w)
  /\ exec getToken (set_credentials (delete TOKEN_INFO_KEY) w)
     = (Throw no_token, set_credentials (delete TOKEN_INFO_KEY) w).
Proof.
  rewrite !exec_getToken. unfold token_of, stored. split.
  - rewrite Hheld. cbn. destruct (decide (data = "")); [reflexivity|].
    rewrite Hcorrupt. reflexivity.
  - cbn. rewrite lookup_delete_eq. reflexivity.
Qed.

(** C10. [storeToken(accessToken, 0, refreshToken)] writes the record
    without [expires_at], the same as when no lifetime is given; and as long
    as that record is the stored one, [getToken] returns its access token
    without any request, at whatever time it is called. *)
Theorem storeToken_zero_lifetime (accessToken : string)
    (refreshToken : option string) (w later : World) :
  let info := {| access_token := accessToken; expires_at := None;
                 refresh_token := truthy_string refreshToken |} in
  forall (Htext : JSON_stringify info <> "")
         (Hread : JSON_parse (JSON_stringify info) = Some info)
         (Hkept : credentials later !! TOKEN_INFO_KEY = Some (JSON_stringify info)),
  exec (storeToken accessToken (Some 0) refreshToken) w
  = (Return tt,
     set_credentials (fun c => <[TOKEN_INFO_KEY := JSON_stringify info]> c) w)
  /\ exec (storeToken accessToken (Some 0) refreshToken) w
     = exec (storeToken accessToken None refreshToken) w
  /\ exec getToken later = (Return accessToken, later).
Proof.
  intros info Htext Hread Hkept. rewrite !exec_storeToken.
  repeat split.
  rewrite exec_getToken. unfold token_of, stored. rewrite Hkept. cbn.
  destruct (decide (JSON_stringify info = "")) as [E|_]; [contradiction|].
  rewrite Hread. reflexivity.
Qed.

End StoredRecord.

Lemma getToken_corrupted_record_witness :
  exec (TokenManager.getToken (J := PlainJson.json))
    (Sample.world Sample.offline 0 {[ TokenManager.TOKEN_INFO_KEY := "{not json" ]})
  = (Throw Reading.no_token,
     Sample.world Sample.offline 0 {[ TokenManager.TOKEN_INFO_KEY := "{not json" ]}).
Proof.
  apply (getToken_corrupted_record (J := PlainJson.json) _ "{not json");
    reflexivity.
Defined.

Lemma storeToken_zero_lifetime_witness :
  exec (TokenManager.getToken (J := PlainJson.json))
    (snd (exec (TokenManager.storeToken (J := PlainJson.json) "t1" (Some 0) (Some "r1"))
            (Sample.world Sample.offline 1000 ∅)))
  = (Return "t1",
     snd (exec (TokenManager.storeToken (J := PlainJson.json) "t1" (Some 0) (Some "r1"))
            (Sample.world Sample.offline 1000 ∅))).
Proof.
  apply (storeToken_zero_lifetime (J := PlainJson.json) "t1" (Some "r1")
           (Sample.world Sample.offline 1000 ∅)); vm_compute; congruence.
Defined.

(** ** The wait before a request *)

Section RateLimitWait.
Import TokenManager Reading.

(** C7, as the code has it.  [waitForRateLimit] serves two waits one after
    the other.  First, when [now - lastRequest < backoffDelay], a timer for
    [first = backoffDelay - (now - lastRequest)]; the clock is at [t1] when
    it is over.  Then, when a quota snapshot with [remaining = 0] is known
    and [reset * 1000] is still ahead at [t1], a timer for
    [second = reset * 1000 - t1]; the clock is at [t2] when that one is
    over.  These are the only timers it starts, and [lastRequest] becomes
    [t2].  When both delays are within the range of the timers of the
    platform, the time waited in all is [max(b, reset * 1000 - now)] if
    [remaining = 0] and [b] otherwise, [b] being
    [max(0, backoffDelay - (now - lastRequest))]: the backoff wait is always
    served, and the wait for the reset only adds what is still missing. *)
Theorem waitForRateLimit_wait (w : World) :
  let m := manager w in
  let first := backoffDelay m - (now w - lastRequest m) in
  let t1 := if 0 <? first then now w + timer_delay first else now w in
  let second :=
    match rateLimitInfo m with
    | Some info => if remaining info =? 0 then reset info * 1000 - t1 else 0
    | None => 0
    end in
  let t2 := if 0 <? second then t1 + timer_delay second else t1 in
  let b := Z.max 0 first in
  let w' := snd (exec waitForRateLimit w) in
  fst (exec waitForRateLimit w) = Return tt
  /\ timeouts w'
     = timeouts w ++ (if 0 <? first then [first] else [])
                  ++ (if 0 <? second then [second] else [])
  /\ now w' = t2
  /\ lastRequest (manager w') = t2
  /\ (first <= TIMEOUT_MAX -> second <= TIMEOUT_MAX ->
      now w' - now w
      = match rateLimitInfo m with
        | Some info =>
            if remaining info =? 0
            then Z.max b (reset info * 1000 - now w)
            else b
        | None => b
        end).
Proof.
  cbn zeta. rewrite exec_waitForRateLimit. cbn [fst snd].
  unfold after_wait, waits, total_wait, rate_limit_wait, reset_left,
    backoff_wait, backoff_left.
  cbn [timeouts now manager lastRequest set_manager set_now set_timeouts].
  set (first := backoffDelay (manager w) - (now w - lastRequest (manager w))).
  split; [reflexivity|].
  destruct (Z.ltb_spec 0 first) as [Hpos|Hneg]; rewrite ?Z.add_0_r, ?Z.add_0_l;
    (destruct (rateLimitInfo (manager w)) as [info|];
     [destruct (remaining info =? 0)|]);
    cbn [Z.ltb Z.compare]; rewrite ?Z.add_0_r, ?app_nil_r;
    try match goal with
        | |- context [0 <? ?x] => destruct (Z.ltb_spec 0 x) as [Hleft|Hleft]
        end;
    rewrite ?Z.add_0_r, ?app_nil_r;
    (split; [reflexivity|]); (split; [lia|]); (split; [lia|]);
    intros Hfirst Hsecond; cbv iota in Hsecond |- *;
    try rewrite (timer_delay_in_range first) in Hleft by lia;
    rewrite ?(timer_delay_in_range first) in Hsecond |- * by lia;
    try (rewrite timer_delay_in_range by lia); lia.
Qed.

End RateLimitWait.

(** C7 fails as stated: with [remaining = 0] and the time 500 ms before the
    reset, a manager whose backoff delay has 900 ms left waits 900 ms, not
    [reset * 1000 - now = 500]. *)
Lemma waitForRateLimit_not_reset_minus_now :
  let w := Scenario.quota_exhausted in
  let w' := snd (exec TokenManager.waitForRateLimit w) in
  (exists info, rateLimitInfo (manager w) = Some info
                /\ remaining info = 0 /\ now w < reset info * 1000
                /\ reset info * 1000 - now w = 500)
  /\ now w' - now w = 900
  /\ timeouts w' = [900].
Proof.
  cbn zeta. split.
  - eexists. split; [reflexivity|]. vm_compute. repeat split; congruence.
  - vm_compute. split; reflexivity.
Qed.

Lemma waitForRateLimit_wait_witness :
  let w := Scenario.quota_exhausted in
  now (snd (exec TokenManager.waitForRateLimit w)) - now w = 900
  /\ timeouts (snd (exec TokenManager.waitForRateLimit w)) = [900].
Proof.
  cbn zeta.
  destruct (waitForRateLimit_wait Scenario.quota_exhausted)
    as (_ & Htimers & _ & _ & Htotal).
  split.
  - rewrite Htotal; [reflexivity | vm_compute; congruence | vm_compute; congruence].
  - rewrite Htimers. reflexivity.
Defined.

(** ** What the methods of the manager leave alone *)

Section Frames.
Context `{J : Json}.
Import TokenManager Reading.

Lemma refreshed_frame (info : option TokenInfo) (w : World) :
  calls (snd (refreshed info w)) = calls w
  /\ manager (snd (refreshed info w)) = manager w
  /\ now (snd (refreshed info w)) = now w.
Proof.
  unfold refreshed. destruct (truthy_string _) as [r|]; [|auto].
  destruct (access_token_endpoint _ _) as [e | [data | st err]]; cbn; auto.
Qed.

Lemma token_of_frame (w : World) :
  calls (snd (token_of w)) = calls w
  /\ manager (snd (token_of w)) = manager w
  /\ now (snd (token_of w)) = now w.
Proof.
  unfold token_of. destruct (stored w) as [info|]; [|auto].
  destruct (in_refresh_window _ _); [apply refreshed_frame | auto].
Qed.

Lemma rate_limit_updated_frame (w : World) :
  calls (rate_limit_updated w) = calls w
  /\ backoffDelay (manager (rate_limit_updated w)) = backoffDelay (manager w).
Proof.
  unfold rate_limit_updated.
  destruct (token_of_frame w) as (Hc & Hm & _).
  destruct (token_of w) as [[token | e] w1]; cbn in *; [|rewrite Hc, Hm; auto].
  destruct (rate_limit_endpoint _ _) as [e | [data | st err]]; cbn;
    rewrite Hc, Hm; auto.
Qed.

(** The errors of [getToken] are neither rate-limit nor auth errors for the
    [catch] block of [executeRequest]. *)
Lemma refreshed_error (info : option TokenInfo) (w w' : World) (e : Exn) :
  refreshed info w = (Throw e, w') ->
  isRateLimitError e = false /\ isAuthError e = false.
Proof.
  unfold refreshed. destruct (truthy_string _) as [r|].
  - destruct (access_token_endpoint _ _) as [e0 | [data | st err]];
      intros [= <- _]; split; reflexivity.
  - intros [= <- _]; split; reflexivity.
Qed.

Lemma token_of_error (w w' : World) (e : Exn) :
  token_of w = (Throw e, w') ->
  isRateLimitError e = false /\ isAuthError e = false.
Proof.
  unfold token_of. destruct (stored w) as [info|].
  - destruct (in_refresh_window _ _); [apply refreshed_error|discriminate].
  - intros [= <- _]; split; reflexivity.
Qed.

End Frames.

(** ** [executeRequest] *)

Section ExecuteRequest.
Context `{J : Json} {T : Type}.
Import TokenManager Reading.

(** C2, as the code has it.  When the first invocation of the callback fails
    with an error that [isAuthError] accepts (and [isRateLimitError], which is
    asked first, does not), [refreshToken] is called once.  If it fails, its
    error leaves [executeRequest] and the callback is not invoked again.  If
    it succeeds, it has made one request to the token endpoint and the
    callback is invoked once more, with the refreshed token;
    [executeRequest] then ends exactly as that second invocation does: with
    its result when it succeeds, and with its own error, unchanged, when it
    fails.  The callback has then been invoked exactly twice, first with the
    stored token and then with the new one. *)
Theorem executeRequest_auth_retry (f : string -> Async T) (w w2 w3 w4 : World)
    (token : string) (e : Exn) (refresh : Outcome string)
    (Hspy : forall tok v, calls (snd (exec (f tok) v)) = calls v)
    (Htoken : exec getToken (snd (exec waitForRateLimit w)) = (Return token, w2))
    (Hfirst : exec (spy f token) w2 = (Throw e, w3))
    (Hauth : isAuthError e = true)
    (Hlimit : isRateLimitError e = false)
    (Hrefresh : exec (refreshToken None) w3 = (refresh, w4)) :
  match refresh with
  | Throw e' =>
      exec (executeRequest (spy f)) w = (Throw e', w4)
      /\ calls w4 = calls w ++ [token]
  | Return token' =>
      exec (executeRequest (spy f)) w = exec (spy f token') w4
      /\ calls (snd (exec (executeRequest (spy f)) w)) = calls w ++ [token; token']
      /\ exists r, fetched w4 = fetched w3 ++ [refresh_request r]
  end.
Proof.
  rewrite exec_executeRequest. unfold requested.
  rewrite exec_waitForRateLimit, exec_getToken in Htoken. cbn [snd] in Htoken.
  rewrite exec_refreshToken in Hrefresh.
  assert (Hc2 : calls w2 = calls w).
  { destruct (token_of_frame (after_wait w)) as (Hc & _).
    rewrite Htoken in Hc. exact Hc. }
  assert (Hc3 : calls w3 = calls w ++ [token]).
  { pose proof (f_equal snd Hfirst) as E. cbn [snd] in E. rewrite <- E.
    unfold spy. rewrite exec_bind, exec_modify.
    rewrite Hspy. cbn. rewrite Hc2. reflexivity. }
  assert (Hc4 : calls w4 = calls w3).
  { destruct (refreshed_frame (stored w3) w3) as (Hc & _).
    rewrite Hrefresh in Hc. exact Hc. }
  rewrite Htoken, Hfirst. unfold caught. rewrite Hlimit, Hauth, Hrefresh.
  destruct refresh as [token' | e'].
  - split; [reflexivity|]. split.
    + unfold spy. rewrite exec_bind, exec_modify. rewrite Hspy. cbn.
      rewrite Hc4, Hc3, <- app_assoc. reflexivity.
    + revert Hrefresh. unfold refreshed.
      destruct (truthy_string _) as [r|]; [|discriminate].
      destruct (access_token_endpoint _ _) as [e0 | [data | st err]];
        try discriminate.
      intros [= _ <-]. exists r. reflexivity.
  - split; [reflexivity|]. rewrite Hc4. exact Hc3.
Qed.

(** C6, as the code has it.  One call of [executeRequest] leaves
    [backoffDelay] at [DEFAULT_BACKOFF] when the first invocation of the
    callback succeeds, at twice its value when that invocation fails with a
    rate-limit error, and unchanged in every other case (no token, an auth
    error with or without a successful retry, any other error); [getToken]
    and [storeToken] never change it.  The callback is assumed not to reach
    into the private fields of the manager. *)
Theorem backoffDelay_changes (request : string -> Async T) (w : World)
    (Hprivate : forall tok v, manager (snd (exec (request tok) v)) = manager v) :
  let d := backoffDelay (manager w) in
  let d' := backoffDelay (manager (snd (exec (executeRequest request) w))) in
  match exec getToken (snd (exec waitForRateLimit w)) with
  | (Throw _, _) => d' = d
  | (Return token, w2) =>
      match exec (request token) w2 with
      | (Return _, _) => d' = DEFAULT_BACKOFF
      | (Throw e, _) => d' = if isRateLimitError e then d * 2 else d
      end
  end
  /\ backoffDelay (manager (snd (exec getToken w))) = d
  /\ forall a e r, backoffDelay (manager (snd (exec (storeToken a e r) w))) = d.
Proof.
  cbn zeta. rewrite exec_executeRequest, exec_waitForRateLimit, !exec_getToken.
  cbn [snd]. unfold requested.
  assert (Hcaught : forall e v,
             backoffDelay (manager (snd (caught request e v)))
             = if isRateLimitError e then backoffDelay (manager v) * 2
               else backoffDelay (manager v)).
  { intros e v. unfold caught. destruct (isRateLimitError e); [reflexivity|].
    destruct (isAuthError e); [|reflexivity].
    destruct (refreshed_frame (stored v) v) as (_ & Hm & _).
    destruct (refreshed (stored v) v) as [[tok | e'] v']; cbn in *.
    - rewrite Hprivate, Hm. reflexivity.
    - rewrite Hm. reflexivity. }
  split; [|split].
  - destruct (token_of_frame (after_wait w)) as (_ & Hm & _).
    destruct (token_of (after_wait w)) as [[token | e] w2] eqn:Htok; cbn in Hm.
    + pose proof (Hprivate token w2) as Hp.
      destruct (exec (request token) w2) as [[result | e] w3]; cbn in Hp.
      * cbn [snd]. destruct (rate_limit_updated_frame
                               (with_backoffDelay (fun _ => DEFAULT_BACKOFF) w3))
          as (_ & Hb). rewrite Hb. reflexivity.
      * rewrite Hcaught, Hp, Hm. reflexivity.
    + rewrite Hcaught. destruct (token_of_error _ _ _ Htok) as (-> & _).
      rewrite Hm. reflexivity.
  - destruct (token_of_frame w) as (_ & -> & _). reflexivity.
  - intros a e r. rewrite exec_storeToken. reflexivity.
Qed.

End ExecuteRequest.

(** *** Concrete runs of [executeRequest] *)

Section ExecuteRequestRuns.
Import TokenManager Reading Sample Scenario.
#[local] Existing Instance PlainJson.json.

Lemma executeRequest_auth_retry_witness :
  fst (exec (executeRequest (spy rejects_old_token)) retry_world) = Return "success"
  /\ calls (snd (exec (executeRequest (spy rejects_old_token)) retry_world))
     = ["old-token"; "new-token"].
Proof.
  pose (w1 := snd (exec waitForRateLimit retry_world)).
  pose (w2 := snd (exec getToken w1)).
  pose (w3 := snd (exec (spy rejects_old_token "old-token") w2)).
  pose (w4 := snd (exec (refreshToken None) w3)).
  destruct (executeRequest_auth_retry rejects_old_token retry_world w2 w3 w4
              "old-token" unauthorized (Return "new-token"))
    as (Hrun & Hcalls & _).
  - intros tok v. unfold rejects_old_token. destruct (decide _); reflexivity.
  - vm_compute. reflexivity.
  - vm_compute. reflexivity.
  - vm_compute. reflexivity.
  - vm_compute. reflexivity.
  - vm_compute. reflexivity.
  - split; [rewrite Hrun; vm_compute; reflexivity | exact Hcalls].
Defined.

(** C2 fails as stated: when the retried invocation fails too, its error
    leaves [executeRequest] as it is, here the bare 500 rejection, and not as
    a [PRAutomatorError] of any kind. *)
Lemma executeRequest_retry_failure_not_wrapped :
  let r := exec (executeRequest (spy fails_twice)) retry_world in
  fst r = Throw server_error
  /\ calls (snd r) = ["old-token"; "new-token"]
  /\ forall type message cause, fst r <> Throw (PRAutomatorError type message cause).
Proof.
  cbn zeta.
  assert (E : fst (exec (executeRequest (spy fails_twice)) retry_world)
              = Throw server_error) by (vm_compute; reflexivity).
  split; [exact E|]. split; [vm_compute; reflexivity|].
  intros type message cause. rewrite E. unfold server_error. discriminate.
Qed.

Lemma backoffDelay_changes_witness :
  backoffDelay (manager (snd (exec (executeRequest always_limited) classic_world)))
  = 2000.
Proof.
  destruct (backoffDelay_changes always_limited classic_world) as (H & _).
  - intros tok v. reflexivity.
  - cbn zeta in H.
    change (exec getToken (snd (exec waitForRateLimit classic_world)))
      with (Return "ghp_classic", snd (exec waitForRateLimit classic_world)) in H.
    exact H.
Defined.

Lemma stored_classic (w : World) :
  credentials w = vault_with classic_token -> stored w = Some classic_token.
Proof. intros E. unfold stored. rewrite E. vm_compute. reflexivity. Qed.

Lemma always_limited_step (w : World) :
  credentials w = vault_with classic_token ->
  exec (executeRequest always_limited) w
  = (Throw (rate_limit_exceeded too_many_requests),
     with_backoffDelay (fun d => d * 2) (after_wait w)).
Proof.
  intros E. rewrite exec_executeRequest. unfold requested, token_of.
  rewrite (stored_classic (after_wait w)) by exact E. reflexivity.
Qed.

Lemma always_limited_backoff (n : nat) (w : World) :
  credentials w = vault_with classic_token ->
  backoffDelay (manager (executeRequests n always_limited w))
  = backoffDelay (manager w) * 2 ^ Z.of_nat n.
Proof.
  revert w. induction n as [|n IH]; intros w E.
  - cbn. lia.
  - cbn [executeRequests]. rewrite always_limited_step by exact E. cbn [snd].
    rewrite IH by exact E. cbn.
    rewrite Nat2Z.inj_succ, Z.pow_succ_r by lia. lia.
Qed.

Example backoff_after_eleven_rate_limits :
  backoffDelay (manager (executeRequests 11 always_limited classic_world))
  = 2048000.
Proof. rewrite always_limited_backoff by reflexivity. reflexivity. Qed.

(** C6 fails as stated: no constant bounds the backoff delay.  Starting from
    the base delay, [n] rate-limited requests in a row leave it at
    [1000 * 2 ^ n]. *)
Lemma backoffDelay_has_no_maximum :
  ~ exists MAX_BACKOFF, forall n,
      backoffDelay (manager (executeRequests n always_limited classic_world))
      <= MAX_BACKOFF.
Proof.
  intros (M & HM). specialize (HM (Z.to_nat (Z.max 0 M))).
  rewrite always_limited_backoff in HM by reflexivity.
  change (backoffDelay (manager classic_world)) with 1000 in HM.
  rewrite Z2Nat.id in HM by lia.
  pose proof (Z.pow_gt_lin_r 2 (Z.max 0 M)) as Hpow.
  assert (Z.max 0 M < 2 ^ Z.max 0 M) by (apply Hpow; lia).
  lia.
Qed.

End ExecuteRequestRuns.

(** ** github-device-flow.ts, run alone *)

Section GitHubFlowRuns.
Import GitHubDeviceFlow GitHubReading.

Lemma exec_github_poll_iteration (attempts : Z) (w : World) :
  exec (poll_iteration attempts) w = polled attempts w.
Proof.
  unfold poll_iteration, polled, swallowed, setSecret.
  exec_simpl.
  destruct (access_token_endpoint _ _) as [e | [data | st refused]]; exec_simpl.
  - cbn. destruct (_ =? _); reflexivity.
  - reflexivity.
  - destruct (decide _); exec_simpl; cbn; [reflexivity|].
    destruct (_ =? _); reflexivity.
Qed.

Lemma exec_github_poll_loop (fuel : nat) (attempts : Z) (w : World) :
  exec (poll_loop (S fuel) attempts) w =
  if attempts <? maxAttempts (flow w) then
    match polled attempts w with
    | (Return (Continue attempts'), w') => exec (poll_loop fuel attempts') w'
    | (Return (ReturnWith token), w') => (Return (Some token), w')
    | (Throw e, w') => (Throw e, w')
    end
  else (Throw max_attempts_reached, w).
Proof.
  cbn [poll_loop]. exec_simpl.
  destruct (_ <? _); [|reflexivity].
  exec_simpl. rewrite exec_github_poll_iteration.
  destruct (polled attempts w) as [[[attempts' | token] | e] w']; reflexivity.
Qed.




Lemma pending_turns_flow (n : nat) (w : World) : flow (pending_turns n w) = flow w.
Proof. revert w. induction n as [|n IH]; intros w; cbn; [|rewrite IH]; reflexivity. Qed.

Lemma pending_turns_server (n : nat) (w : World) :
  server (pending_turns n w) = server w.
Proof. revert w. induction n as [|n IH]; intros w; cbn; [|rewrite IH]; reflexivity. Qed.

Lemma pending_turns_fetched (n : nat) (w : World) :
  fetched (pending_turns n w)
  = fetched w ++ replicate n (access_token_request (flow w)).
Proof.
  revert w. induction n as [|n IH]; intros w; cbn [pending_turns].
  - cbn. rewrite app_nil_r. reflexivity.
  - rewrite IH. cbn. rewrite <- app_assoc. reflexivity.
Qed.

Lemma pending_turns_timeouts (n : nat) (w : World) :
  timeouts (pending_turns n w) = timeouts w ++ replicate n (pollInterval (flow w)).
Proof.
  revert w. induction n as [|n IH]; intros w; cbn [pending_turns].
  - cbn. rewrite app_nil_r. reflexivity.
  - rewrite IH. cbn. rewrite <- app_assoc. reflexivity.
Qed.

Lemma pending_turns_now (n : nat) (w : World) :
  now (pending_turns n w) = now w + Z.of_nat n * timer_delay (pollInterval (flow w)).
Proof.
  revert w. induction n as [|n IH]; intros w; cbn [pending_turns].
  - lia.
  - rewrite IH. cbn [flow slept sent set_now set_timeouts set_fetched now]. lia.
Qed.

Lemma pending_turns_credentials (n : nat) (w : World) :
  credentials (pending_turns n w) = credentials w.
Proof. revert w. induction n as [|n IH]; intros w; cbn; [|rewrite IH]; reflexivity. Qed.

(** With a token endpoint that always answers [authorization_pending], the
    loop uses up the attempts that are left and then throws. *)
Lemma github_poll_loop_pending (n fuel : nat) (attempts : Z) (w : World) :
  always_pending (server w) ->
  attempts + Z.of_nat n = maxAttempts (flow w) ->
  (n < fuel)%nat ->
  exec (poll_loop fuel attempts) w = (Throw max_attempts_reached, pending_turns n w).
Proof.
  revert fuel attempts w. induction n as [|n IH]; intros fuel attempts w Hp Ha Hf.
  - destruct fuel as [|fuel]; [lia|]. rewrite exec_github_poll_loop.
    destruct (Z.ltb_spec attempts (maxAttempts (flow w))); [lia|]. reflexivity.
  - destruct fuel as [|fuel]; [lia|]. rewrite exec_github_poll_loop.
    destruct (Z.ltb_spec attempts (maxAttempts (flow w))); [|lia].
    unfold polled.
    destruct (Hp (fetched w ++ [access_token_request (flow w)]))
      as (st & refused & -> & Hcode).
    destruct (decide _); [|contradiction].
    cbn [pending_turns]. apply IH.
    + exact Hp.
    + cbn. lia.
    + lia.
Qed.

End GitHubFlowRuns.

Section GitHubFlowClaims.
Import GitHubDeviceFlow GitHubReading.

Lemma exec_github_initiate_ok (w : World) (data : DeviceCodeResponse) :
  device_code_endpoint (server w) (fetched w ++ [device_code_request (flow w)])
  = Resolves (Ok data) ->
  exec initiate w
  = (Return {| v_verification_uri := verification_uri data;
               v_user_code := user_code data |},
     set_flow (initiated_fields (now w) data)
       (sent (device_code_request (flow w)) w)).
Proof.
  intros Hreply. unfold initiate, Date_now. exec_simpl. rewrite Hreply.
  exec_simpl. reflexivity.
Qed.

Lemma exec_github_poll (fuel : nat) (w : World) :
  exec (poll fuel) w =
  match truthy_string (deviceCode (flow w)) with
  | None =>
      (Throw (PRAutomatorError "auth"
                "Device flow not initiated. Call initiate() first." None), w)
  | Some _ =>
      if match expiresAt (flow w) with
         | Some expires => now w >? expires
         | None => false
         end
      then (Throw (PRAutomatorError "auth"
                     "Device code has expired. Please initiate a new flow." None),
            w)
      else exec (poll_loop fuel 0) w
  end.
Proof.
  unfold poll, Date_now. exec_simpl.
  destruct (truthy_string _); [|reflexivity]. exec_simpl.
  destruct (match expiresAt (flow w) with Some _ => _ | None => _ end);
    reflexivity.
Qed.

(** C5, as the code has it.  After [initiate] received [expires_in = 900] and
    [interval = 5], a [poll] that starts [gap] milliseconds later (the code
    not yet expired) and meets [authorization_pending] every time makes
    exactly [maxAttempts = 12] token requests, each followed by a timer of
    5000 ms, and then throws the "Max polling attempts reached" error.  It
    has then waited 60 s from its own start: the expiry of the device code is
    looked at only before the loop, so the waiting stays within
    [initiate time + expires_in] exactly when [poll] started no later than
    840 s after [initiate]. *)
Theorem poll_pending_times_out (w : World) (data : DeviceCodeResponse)
    (gap : Z) (fuel : nat)
    (Hreply : device_code_endpoint (server w)
                (fetched w ++ [device_code_request (flow w)])
              = Resolves (Ok data))
    (Hexpires : expires_in data = 900)
    (Hinterval : interval data = 5)
    (Hcode : device_code data <> "")
    (Hmax : maxAttempts (flow w) = 12)
    (Hpending : always_pending (server w))
    (Hgap : 0 <= gap <= 900 * 1000)
    (Hfuel : (12 < fuel)%nat) :
  let initiated := snd (exec initiate w) in
  let started := set_now (fun t => t + gap) initiated in
  let r := exec (poll fuel) started in
  fst r = Throw max_attempts_reached
  /\ fetched (snd r)
     = fetched initiated ++ replicate 12 (access_token_request (flow initiated))
  /\ timeouts (snd r) = timeouts initiated ++ replicate 12 5000
  /\ now (snd r) = now w + gap + 12 * 5000
  /\ (now (snd r) <= now w + 900 * 1000 <-> gap <= 840 * 1000).
Proof.
  cbn zeta. rewrite (exec_github_initiate_ok w data Hreply). cbn [snd].
  set (started := set_now _ _).
  assert (Hflow : flow started
                  = initiated_fields (now w) data (flow w)) by reflexivity.
  rewrite exec_github_poll. rewrite Hflow. cbn [deviceCode initiated_fields].
  cbn [truthy_string]. destruct (decide (device_code data = "")); [contradiction|].
  cbn [expiresAt initiated_fields]. rewrite Hexpires.
  destruct (Z.gtb_spec (now started) (now w + 900 * 1000)) as [Hlate|_].
  { cbn in Hlate. lia. }
  rewrite (github_poll_loop_pending 12 fuel 0 started).
  - cbn [fst snd].
    rewrite pending_turns_fetched, pending_turns_timeouts, pending_turns_now.
    rewrite Hflow. cbn [pollInterval initiated_fields]. rewrite Hinterval.
    change (timer_delay (5 * 1000)) with 5000.
    cbn [started set_now now sent set_fetched set_flow timeouts fetched].
    repeat split; try reflexivity; lia.
  - exact Hpending.
  - rewrite Hflow. cbn. lia.
  - exact Hfuel.
Qed.

Lemma exec_github_revoke (w : World) : exec revoke w = revoked w.
Proof.
  unfold revoke, revoked, getSecret, deleteSecret, vault_get. exec_simpl.
  destruct (truthy_string _) as [token|]; [|reflexivity]. exec_simpl.
  destruct (revoke_endpoint _ _) as [e | [[] | st err]]; exec_simpl; reflexivity.
Qed.

Lemma revoked_returned (w : World) :
  fst (revoked w) = Return tt ->
  truthy_string (credentials (snd (revoked w)) !! "github_token") = None.
Proof.
  unfold revoked.
  destruct (truthy_string (credentials w !! "github_token")) as [token|] eqn:Ht.
  - destruct (revoke_endpoint _ _) as [e | [[] | st err]]; cbn [fst snd];
      try discriminate.
    intros _. cbn. rewrite lookup_delete_eq. reflexivity.
  - intros _. exact Ht.
Qed.

(** C8.  [revoke] with no token in the vault returns without a request and
    without an error.  With a token it sends one revoke request; the token is
    removed from the vault when the server answers [ok], and otherwise (a
    response that is not [ok], or a rejected request) the "Failed to revoke
    GitHub token" error is thrown and the vault is left as it was.  A
    [revoke] that follows one that returned does nothing at all. *)
Theorem revoke_contract (w : World) :
  let r := exec revoke w in
  let key := "github_token" in
  (credentials w !! key = None -> r = (Return tt, w))
  /\ (forall token, credentials w !! key = Some token -> token <> "" ->
      let req := revoke_request (flow w) token in
      fetched (snd r) = fetched w ++ [req]
      /\ match revoke_endpoint (server w) (fetched w ++ [req]) with
         | Resolves (Ok _) =>
             fst r = Return tt /\ credentials (snd r) = delete key (credentials w)
         | Resolves (NotOk statusText _) =>
             fst r = Throw (revoke_failed
                              (Error ("Failed to revoke token: " +:+ statusText)))
             /\ credentials (snd r) = credentials w
         | Rejects e =>
             fst r = Throw (revoke_failed e) /\ credentials (snd r) = credentials w
         end)
  /\ (fst r = Return tt -> exec revoke (snd r) = (Return tt, snd r)).
Proof.
  cbn zeta. rewrite !exec_github_revoke. split; [|split].
  - intros Hnone. unfold revoked. rewrite Hnone. reflexivity.
  - intros token Hsome Hne. unfold revoked. rewrite Hsome. cbn [truthy_string].
    destruct (decide (token = "")); [contradiction|].
    destruct (revoke_endpoint _ _) as [e | [[] | st err]]; cbn; auto.
  - intros Hreturned. unfold revoked at 1.
    rewrite (revoked_returned w Hreturned). reflexivity.
Qed.

End GitHubFlowClaims.

Section GitHubFlowClaimRuns.
Import GitHubDeviceFlow GitHubReading Sample FlowScenario.

Lemma never_authorized_pending (t : Z) (vault : gmap string string) :
  always_pending (server (world never_authorized t vault)).
Proof. intros history. eexists _, _. split; reflexivity. Qed.

Lemma poll_pending_times_out_witness :
  let w := world never_authorized 1000 ∅ in
  let r := exec (poll 13) (set_now (fun t => t + 30000) (snd (exec initiate w))) in
  fst r = Throw max_attempts_reached /\ now (snd r) = 1000 + 30000 + 12 * 5000.
Proof.
  cbn zeta.
  destruct (poll_pending_times_out (world never_authorized 1000 ∅)
              device_code_granted 30000 13) as (H1 & _ & _ & H4 & _).
  - reflexivity.
  - reflexivity.
  - reflexivity.
  - vm_compute. congruence.
  - reflexivity.
  - apply never_authorized_pending.
  - lia.
  - lia.
  - split; [exact H1 | exact H4].
Defined.

(** C5 fails as stated: a [poll] that starts 899 s after [initiate], one
    second before the device code expires, still makes its twelve attempts
    and is waiting until 959 s after [initiate], past
    [initiate time + expires_in]. *)
Lemma poll_waits_past_expiry :
  let w := world never_authorized 1000 ∅ in
  let initiated := snd (exec initiate w) in
  let r := exec (poll 13) (set_now (fun t => t + 899000) initiated) in
  expiresAt (flow initiated) = Some (now w + 900 * 1000)
  /\ fst r = Throw max_attempts_reached
  /\ timeouts (snd r) = replicate 12 5000
  /\ now (snd r) = now w + 959000
  /\ now w + 900 * 1000 < now (snd r).
Proof. vm_compute. repeat split; reflexivity. Qed.

Lemma revoke_contract_witness :
  let w := world never_authorized 0 {[ "github_token" := "gho_mock123" ]} in
  fst (exec revoke w)
  = Throw (revoke_failed (Error "Failed to revoke token: Unauthorized"))
  /\ credentials (snd (exec revoke w)) = credentials w.
Proof.
  cbn zeta.
  destruct (revoke_contract
              (world never_authorized 0 {[ "github_token" := "gho_mock123" ]}))
    as (_ & H & _).
  destruct (H "gho_mock123") as (_ & Hfail).
  - reflexivity.
  - vm_compute. congruence.
  - exact Hfail.
Defined.

End GitHubFlowClaimRuns.

(** ** device-flow.ts, run alone *)

Section DeviceFlowRuns.
Context `{J : Json}.
Import DeviceFlow.

Lemma exec_deviceflow_poll_loop (fuel : nat) (attempts : Z) (w : World) :
  exec (poll_loop (S fuel) attempts) w =
  if attempts <? maxAttempts (flow w) then
    match exec (poll_iteration attempts) w with
    | (Return (Continue attempts'), w') => exec (poll_loop fuel attempts') w'
    | (Return (ReturnWith _), w') => (Return (Some tt), w')
    | (Throw e, w') => (Throw e, w')
    end
  else (Throw DeviceFlowErrors.timeout, w).
Proof.
  cbn [poll_loop]. exec_simpl.
  destruct (_ <? _); [|reflexivity].
  exec_simpl.
  destruct (exec (poll_iteration attempts) w) as [[[attempts' | []] | e] w'];
    reflexivity.
Qed.

(** A response that is not [ok], whatever its body says, is followed by a
    timer of [pollInterval] and the next attempt. *)
Lemma deviceflow_not_ok (attempts : Z) (w : World) (statusText : string)
    (refused : OAuthError) :
  access_token_endpoint (server w) (fetched w ++ [access_token_request (flow w)])
  = Resolves (NotOk statusText refused) ->
  exec (poll_iteration attempts) w
  = (Return (Continue (attempts + 1)),
     slept (pollInterval (flow w)) (sent (access_token_request (flow w)) w)).
Proof.
  intros Hreply. unfold poll_iteration. exec_simpl. rewrite Hreply.
  exec_simpl. reflexivity.
Qed.



End DeviceFlowRuns.

(** ** Refusals other than [authorization_pending] *)

Section Refusals.
Context `{J : Json}.
Import GitHubReading.





End Refusals.

Section RefusalRuns.
Import GitHubDeviceFlow GitHubReading Sample FlowScenario.
#[local] Existing Instance PlainJson.json.





End RefusalRuns.

(** ** Concurrent calls of [getToken] *)

Lemma sim_resume {A} (a a' : Task A) (w : World) :
  sim a a' ->
  sim (fst (resume a w)) (fst (resume a' w))
  /\ snd (resume a w) = snd (resume a' w).
Proof.
  intros [o | u1 n1 u2 n2 Hu Hn]; cbn.
  - split; [constructor | reflexivity].
  - split; [apply Hn | apply Hu].
Qed.

Section Simulation.
Context {A B : Type}.

Lemma sim_interleave (schedule : list Turn) (a a' : Task A) (b b' : Task B)
    (w : World) :
  sim a a' -> sim b b' ->
  sim (fst (fst (interleave schedule a b w)))
      (fst (fst (interleave schedule a' b' w)))
  /\ sim (snd (fst (interleave schedule a b w)))
         (snd (fst (interleave schedule a' b' w)))
  /\ snd (interleave schedule a b w) = snd (interleave schedule a' b' w).
Proof.
  revert a a' b b' w.
  induction schedule as [|[ms | | ] rest IH]; intros a a' b b' w Ha Hb;
    cbn [interleave].
  - auto.
  - apply IH; assumption.
  - destruct (sim_resume a a' w Ha) as (Hs & ->). apply IH; assumption.
  - destruct (sim_resume b b' w Hb) as (Hs & ->). apply IH; assumption.
Qed.

Lemma sim_done_l (o : Outcome A) (t : Task A) : sim (Done o) t -> t = Done o.
Proof. inversion 1. reflexivity. Qed.

Lemma sim_done_r (o : Outcome A) (t : Task A) : sim t (Done o) -> t = Done o.
Proof. inversion 1. reflexivity. Qed.

End Simulation.

Section GetTokenAutomaton.
Context `{J : Json}.
Import TokenManager Reading Automaton.

Ltac norm :=
  cbv beta iota zeta delta
    [getToken getStoredTokenInfo shouldRefreshToken refreshToken storeToken
     vault_get vault_set fetch bind bindT catchT try_catch await yield ret
     throw get modify Date_now fst snd stored in_refresh_window
     awaiting_getStoredTokenInfo awaiting_shouldRefreshToken awaiting_fetch
     awaiting_json awaiting_mkdir awaiting_writeFile awaiting_save
     awaiting_vault_set awaiting_storeToken save mkdir writeFile
     new_PRAutomatorError
     mbind option_bind sent failed_refresh no_token no_refresh_token
     stored_in record_of];
  cbn [now credentials server fetched timeouts calls manager flow
       set_now set_credentials set_fetched set_timeouts set_calls set_manager
       set_flow].

Ltac split_scrutinee :=
  match goal with
  | H : ?t = _ |- context [match ?t with _ => _ end] => rewrite H
  | |- context [match ?t with _ => _ end] =>
      lazymatch t with
      | truthy_string _ => destruct t eqn:?
      | truthy_number _ => destruct t eqn:?
      | JSON_parse _ => destruct t eqn:?
      | Z.gtb _ _ => destruct t eqn:?
      | access_token_endpoint _ _ => destruct t eqn:?
      | _ => is_var t; destruct t
      end
  end.

Ltac same_update := norm; repeat (split_scrutinee; norm); reflexivity.

Ltac follow :=
  norm; repeat (split_scrutinee; norm);
  first [ apply sim_done
        | apply sim_susp; [intros ?; same_update | intros ?; follow] ].

(** A call of [getToken] reads the stored record, changes nothing, and
    leaves the automaton behind. *)
Lemma getToken_call (w : World) :
  snd (getToken w) = w
  /\ sim (fst (getToken w)) (awaiting_getStoredTokenInfo (stored w)).
Proof. split; [same_update | follow]. Qed.

Context (w0 : World) (info : TokenInfo) (r : string)
        (first second : TokenResponse).

Lemma window_stays_open (w : World) :
  in_refresh_window (now w0) info = true -> now w0 <= now w ->
  in_refresh_window (now w) info = true.
Proof.
  unfold in_refresh_window. destruct (truthy_number _) as [ex|]; [|discriminate].
  intros H Hle. apply Z.gtb_lt in H. apply Z.gtb_lt. lia.
Qed.

Lemma Consistent_swap (a b : Stage) (w : World) :
  Consistent w0 r first second a b w -> Consistent w0 r first second b a w.
Proof.
  unfold Consistent. intros (Hnow & Hsrv & H). split; [exact Hnow|].
  split; [exact Hsrv|].
  destruct (granted a), (granted b); try exact H.
  destruct H as (Hf & [H | H]); split; try exact Hf; tauto.
Qed.

(** One resumption of the first call. *)
Lemma resume_first (a b : Stage) (w : World) :
  Refreshable w0 info r first second ->
  Consistent w0 r first second a b w ->
  fst (resume (task_at info a) w) = task_at info (next_stage first second a b)
  /\ Consistent w0 r first second (next_stage first second a b) b
       (snd (resume (task_at info a) w)).
Proof.
  intros HR (Hnow & Hsrv & Hf).
  destruct a as [| |d|d|d|d|d|d|d|d];
    try (split; [reflexivity|]; split; [exact Hnow|]; split; [exact Hsrv|];
         exact Hf).
  - cbn [task_at resume awaiting_getStoredTokenInfo fst snd next_stage].
    rewrite (window_stays_open w (refreshable_window _ _ _ _ _ HR) Hnow).
    split; [reflexivity|]. split; [exact Hnow|]. split; [exact Hsrv|]. exact Hf.
  - cbn [task_at awaiting_shouldRefreshToken next_stage].
    rewrite (refreshable_token _ _ _ _ _ HR). cbn [resume fst snd].
    rewrite Hsrv. cbn [granted] in Hf.
    destruct (granted b) as [db|] eqn:Hb.
    + destruct Hf as (-> & Hfetched). rewrite Hfetched, <- app_assoc.
      cbn [app]. rewrite (refreshable_second _ _ _ _ _ HR).
      split; [reflexivity|]. split; [exact Hnow|]. split; [exact Hsrv|].
      cbn [granted]. rewrite Hb. cbn [sent set_fetched fetched].
      rewrite Hfetched, <- app_assoc. cbn [app]. split; [reflexivity|]. tauto.
    + rewrite Hf. rewrite (refreshable_first _ _ _ _ _ HR).
      split; [reflexivity|]. split; [exact Hnow|]. split; [exact Hsrv|].
      cbn [granted]. rewrite Hb. cbn [sent set_fetched fetched].
      rewrite Hf. split; reflexivity.
Qed.

(** Any schedule keeps the two calls on their automata and the world
    consistent with their stages. *)
Lemma interleave_stages (schedule : list Turn) (a b : Stage) (w : World) :
  Refreshable w0 info r first second ->
  Consistent w0 r first second a b w ->
  fst (interleave schedule (task_at info a) (task_at info b) w)
  = (task_at info (fst (stages_after first second schedule a b)),
     task_at info (snd (stages_after first second schedule a b)))
  /\ Consistent w0 r first second
       (fst (stages_after first second schedule a b))
       (snd (stages_after first second schedule a b))
       (snd (interleave schedule (task_at info a) (task_at info b) w)).
Proof.
  intros HR. revert a b w.
  induction schedule as [|[ms | | ] rest IH]; intros a b w HC;
    cbn [interleave stages_after].
  - split; [reflexivity | exact HC].
  - apply IH. destruct HC as (Hnow & Hsrv & Hf).
    split; [cbn; lia|]. split; [exact Hsrv|exact Hf].
  - destruct (resume_first a b w HR HC) as (-> & HC1). apply IH, HC1.
  - destruct (resume_first b a w HR (Consistent_swap _ _ _ HC)) as (-> & HC1).
    apply IH, Consistent_swap, HC1.
Qed.

(** Where a schedule takes the two calls: every turn moves a call one stage
    on, a call has its response from its second resumption on, and the
    first response goes to the call whose request goes out first. *)
Lemma stages_after_spec (schedule : list Turn) (a b : Stage) :
  let a' := fst (stages_after first second schedule a b) in
  let b' := snd (stages_after first second schedule a b) in
  rank a' = Nat.min 9 (rank a + turns_of_first schedule)
  /\ rank b' = Nat.min 9 (rank b + turns_of_second schedule)
  /\ granted a'
     = match granted a with
       | Some d => Some d
       | None =>
           if (2 <=? rank a + turns_of_first schedule)%nat then
             Some match granted b with
                  | Some _ => second
                  | None =>
                      match first_request (rank a) (rank b) schedule with
                      | Some First => first
                      | _ => second
                      end
                  end
           else None
       end
  /\ granted b'
     = match granted b with
       | Some d => Some d
       | None =>
           if (2 <=? rank b + turns_of_second schedule)%nat then
             Some match granted a with
                  | Some _ => second
                  | None =>
                      match first_request (rank a) (rank b) schedule with
                      | Some Second => first
                      | _ => second
                      end
                  end
           else None
       end.
Proof.
  cbn zeta. revert a b.
  induction schedule as [|[ms | | ] rest IH]; intros a b;
    cbn [stages_after turns_of_first turns_of_second first_request].
  - destruct a, b; cbn; auto.
  - apply IH.
  - specialize (IH (next_stage first second a b) b).
    destruct a, b; cbn in IH |- *; exact IH.
  - specialize (IH a (next_stage first second b a)).
    destruct a, b; cbn in IH |- *; exact IH.
Qed.

Lemma task_at_done (s : Stage) (o : Outcome string) :
  task_at info s = Done o ->
  exists d, s = Settled d /\ o = Return (tr_access_token d).
Proof.
  destruct s as [| |d|d|d|d|d|d|d|d]; cbn; try discriminate.
  - unfold awaiting_shouldRefreshToken.
    destruct (truthy_string _); discriminate.
  - intros [= <-]. exists d. split; reflexivity.
Qed.

Lemma rank_settled (s : Stage) : rank s = 9%nat -> exists d, s = Settled d.
Proof. destruct s as [| |d|d|d|d|d|d|d|d]; cbn; try discriminate. eauto. Qed.

(** C1, as the code has it.  Two calls of [getToken] made concurrently while
    the stored record is within the refresh window do not share a refresh:
    [getToken] keeps no record of a refresh in flight, and each call sends
    its own request to the token endpoint, when it is resumed for the second
    time.  Whatever the order in which the event loop resumes the two calls
    and however much time passes in between: the requests sent are those of
    the calls that have been resumed twice, so never more than two, and two
    once both calls have settled; a call that has settled returns the access
    token granted to its own request, which is the token of the first
    response for the call whose request went out first and the token of the
    second response for the other call; and both calls have settled once
    each has been resumed nine times, which is once for every [await] on the
    way ([getStoredTokenInfo], [shouldRefreshToken], [fetch],
    [response.json], [mkdir], [writeFile], [save], [vault.set],
    [storeToken]). *)
Theorem concurrent_getToken_refreshes_twice (schedule : list Turn)
    (HR : Refreshable w0 info r first second) :
  let run := concurrently getToken getToken schedule w0 in
  let a := fst (fst run) in
  let b := snd (fst run) in
  let w := snd run in
  fetched w
  = fetched w0 ++ replicate (requests_out schedule) (refresh_request r)
  /\ (requests_out schedule <= 2)%nat
  /\ (forall oa ob, a = Done oa -> b = Done ob ->
      fetched w = fetched w0 ++ [refresh_request r; refresh_request r])
  /\ (forall oa, a = Done oa ->
      oa = Return (tr_access_token
                     match first_request 0 0 schedule with
                     | Some First => first
                     | _ => second
                     end))
  /\ (forall ob, b = Done ob ->
      ob = Return (tr_access_token
                     match first_request 0 0 schedule with
                     | Some Second => first
                     | _ => second
                     end))
  /\ ((9 <= turns_of_first schedule)%nat -> (9 <= turns_of_second schedule)%nat ->
      exists oa ob, a = Done oa /\ b = Done ob).
Proof.
  cbn zeta. unfold concurrently.
  destruct (getToken_call w0) as (Hw & Hsim). rewrite !Hw.
  rewrite (refreshable_stored _ _ _ _ _ HR) in Hsim.
  destruct (sim_interleave schedule _ _ _ _ w0 Hsim Hsim) as (Ha & Hb & ->).
  assert (HC : Consistent w0 r first second AtStored AtStored w0).
  { split; [lia|]. split; reflexivity. }
  destruct (interleave_stages schedule AtStored AtStored w0 HR HC)
    as (Hrun & (Hnow & Hsrv & Hf)).
  destruct (stages_after_spec schedule AtStored AtStored)
    as (Hra & Hrb & Hga & Hgb).
  cbn [rank granted Nat.add] in Hra, Hrb, Hga, Hgb.
  change (awaiting_getStoredTokenInfo (Some info)) with (task_at info AtStored)
    in Ha, Hb |- *.
  revert Ha Hb Hnow Hsrv Hf.
  destruct (interleave schedule (task_at info AtStored) (task_at info AtStored) w0)
    as [[ta tb] w] eqn:Hi.
  cbn [fst snd] in *. injection Hrun as -> ->.
  destruct (stages_after first second schedule AtStored AtStored) as [a' b'].
  cbn [fst snd] in *. intros Ha Hb Hnow Hsrv Hf.
  assert (Hout : fetched w
                 = fetched w0
                   ++ replicate (requests_out schedule) (refresh_request r)).
  { unfold requests_out. rewrite Hga, Hgb in Hf.
    destruct (2 <=? turns_of_first schedule)%nat,
             (2 <=? turns_of_second schedule)%nat; cbn [replicate Nat.add].
    - apply Hf.
    - apply Hf.
    - apply Hf.
    - rewrite Hf, app_nil_r. reflexivity. }
  split; [exact Hout|]. split.
  { unfold requests_out.
    destruct (2 <=? turns_of_first schedule)%nat,
             (2 <=? turns_of_second schedule)%nat; cbn; lia. }
  split; [|split; [|split]].
  - intros oa ob Hoa Hob. rewrite Hoa in Ha. rewrite Hob in Hb.
    apply sim_done_l in Ha. apply sim_done_l in Hb.
    destruct (task_at_done _ _ Ha) as (da & -> & _).
    destruct (task_at_done _ _ Hb) as (db & -> & _).
    cbn [granted] in Hf. apply Hf.
  - intros oa Hoa. rewrite Hoa in Ha. apply sim_done_l in Ha.
    destruct (task_at_done _ _ Ha) as (da & -> & ->).
    cbn [granted] in Hga.
    destruct (2 <=? turns_of_first schedule)%nat; [|discriminate].
    injection Hga as ->. reflexivity.
  - intros ob Hob. rewrite Hob in Hb. apply sim_done_l in Hb.
    destruct (task_at_done _ _ Hb) as (db & -> & ->).
    cbn [granted] in Hgb.
    destruct (2 <=? turns_of_second schedule)%nat; [|discriminate].
    injection Hgb as ->. reflexivity.
  - intros H1 H2.
    destruct (rank_settled a') as (da & ->); [lia|].
    destruct (rank_settled b') as (db & ->); [lia|].
    cbn [task_at] in Ha, Hb.
    apply sim_done_r in Ha. apply sim_done_r in Hb. eauto.
Qed.

End GetTokenAutomaton.

Section ConcurrentRuns.
Import TokenManager Reading Automaton Sample RaceScenario.
#[local] Existing Instance PlainJson.json.

Lemma concurrent_getToken_refreshes_twice_witness :
  let run := concurrently getToken getToken alternating racing_world in
  fst (fst run) = Done (Return "new-token-1")
  /\ snd (fst run) = Done (Return "new-token-2")
  /\ fetched (snd run)
     = fetched racing_world
       ++ [refresh_request "refresh-token"; refresh_request "refresh-token"].
Proof.
  cbn zeta.
  destruct (concurrent_getToken_refreshes_twice racing_world
              (expiring_record 1000000) "refresh-token"
              (tokens "new-token-1") (tokens "new-token-2") alternating)
    as (_ & _ & Hboth & Hfirst & Hsecond & Hsettled).
  - split; vm_compute; reflexivity.
  - destruct Hsettled as (oa & ob & Hoa & Hob).
    + vm_compute. lia.
    + vm_compute. lia.
    + rewrite Hoa, Hob, (Hfirst oa Hoa), (Hsecond ob Hob).
      split; [reflexivity|]. split; [reflexivity|]. exact (Hboth oa ob Hoa Hob).
Defined.

(** C1 fails as stated: two calls of [getToken] made together while the
    stored record has one minute left send two refresh requests, and the
    callers receive different access tokens. *)
Lemma concurrent_getToken_not_single_flight :
  let run := concurrently getToken getToken alternating racing_world in
  in_refresh_window (now racing_world) (expiring_record 1000000) = true
  /\ fst (fst run) = Done (Return "new-token-1")
  /\ snd (fst run) = Done (Return "new-token-2")
  /\ fetched (snd run)
     = [refresh_request "refresh-token"; refresh_request "refresh-token"].
Proof. vm_compute. repeat split; reflexivity. Qed.

End ConcurrentRuns.

(** ** The scenarios of the test suites, run on the model *)

Section TestScenarios.
Import TokenManager Sample Scenario FlowScenario RaceScenario.
#[local] Existing Instance PlainJson.json.

(** token-manager.test.ts, "should return valid token". *)
Example getToken_returns_valid_token :
  exec getToken retry_world = (Return "old-token", retry_world).
Proof. vm_compute. reflexivity. Qed.

(** token-manager.test.ts, "should throw when no token available". *)
Example getToken_throws_without_token :
  fst (exec getToken (world offline 0 ∅)) = Throw Reading.no_token.
Proof. vm_compute. reflexivity. Qed.

(** token-manager.test.ts, "should refresh token near expiry". *)
Example getToken_refreshes_near_expiry :
  let r := exec getToken
             (world refreshing 1000000 (vault_with (expiring_record 1000000))) in
  fst r = Return "new-token"
  /\ fetched (snd r) = [refresh_request "refresh-token"]
  /\ credentials (snd r) !! TOKEN_INFO_KEY
     = Some (PlainJson.stringify
               {| access_token := "new-token";
                  expires_at := Some (1000000 + 3600 * 1000);
                  refresh_token := Some "new-refresh-token" |}).
Proof. vm_compute. repeat split; reflexivity. Qed.

(** token-manager.test.ts, "should retry with refreshed token on auth
    error". *)
Example executeRequest_retries_with_new_token :
  let r := exec (executeRequest (spy rejects_old_token)) retry_world in
  fst r = Return "success" /\ calls (snd r) = ["old-token"; "new-token"].
Proof. vm_compute. split; reflexivity. Qed.

(** The round trip of the specification: [storeToken("t1", 3600, "r1")] and
    then [getToken()] at once. *)
Example storeToken_getToken_round_trip :
  let r := exec (storeToken "t1" (Some 3600) (Some "r1") ;; getToken)
             (world offline 1000000 ∅) in
  fst r = Return "t1" /\ fetched (snd r) = [].
Proof. vm_compute. split; reflexivity. Qed.

(** github-device-flow.test.ts, "initiates device flow successfully". *)
Example initiate_returns_uri_and_code :
  fst (exec GitHubDeviceFlow.initiate (world never_authorized 1000 ∅))
  = Return {| v_verification_uri := "https://x/device"; v_user_code := "U1" |}.
Proof. vm_compute. reflexivity. Qed.

(** github-device-flow.test.ts, "polls until access token is received". *)
Example poll_until_granted :
  let srv := scripted (fun n => if (n <=? 2)%nat then pending
                                else Resolves (Ok granted)) in
  let r := exec (GitHubDeviceFlow.poll 5) (initiated_with srv) in
  fst r = Return (Some "gho_mock123")
  /\ length (fetched (snd r)) = 3%nat
  /\ timeouts (snd r) = [5000]
  /\ credentials (snd r) !! "github_token" = Some "gho_mock123".
Proof. vm_compute. repeat split; reflexivity. Qed.

(** github-device-flow.test.ts, "handles polling timeout". *)
Example poll_max_attempts :
  fst (exec (GitHubDeviceFlow.poll 13) (initiated_with never_authorized))
  = Throw GitHubReading.max_attempts_reached.
Proof. vm_compute. reflexivity. Qed.

(** device-flow.test.ts, "should handle polling timeout". *)
Example deviceflow_poll_timeout :
  let w := set_flow (fun _ =>
             DeviceFlow.fresh
               {| DeviceFlow.opt_clientId := "test-client-id";
                  DeviceFlow.opt_scopes := Some ["repo"; "user"];
                  DeviceFlow.opt_maxAttempts := None;
                  DeviceFlow.opt_pollInterval := None |})
             (world never_authorized 1000 ∅) in
  let r := exec (DeviceFlow.poll 13) (snd (exec DeviceFlow.initiate w)) in
  fst r = Throw DeviceFlowErrors.timeout
  /\ timeouts (snd r) = replicate 12 25000.
Proof. vm_compute. split; reflexivity. Qed.

End TestScenarios.

(** * Further properties of the code *)

(** ** [getToken], [storeToken] and [refreshToken] *)

Section TokenLifecycle.
Context `{J : Json}.
Import TokenManager Reading.

Lemma stored_held (w : World) (data : string) (info : TokenInfo) :
  credentials w !! TOKEN_INFO_KEY = Some data -> data <> "" ->
  JSON_parse data = Some info -> stored w = Some info.
Proof.
  intros Hheld Hdata Hread. unfold stored. rewrite Hheld. cbn.
  destruct (decide (data = "")); [contradiction|exact Hread].
Qed.

(** X1.  [getToken] returns the stored access token, sends nothing and
    changes nothing when the record has no [expires_at], when its
    [expires_at] is [0], or when at least five minutes are left, the
    boundary of exactly five minutes included. *)
Theorem getToken_serves_valid_token (w : World) (data : string) (info : TokenInfo)
    (Hheld : credentials w !! TOKEN_INFO_KEY = Some data)
    (Hdata : data <> "")
    (Hread : JSON_parse data = Some info)
    (Hvalid : match expires_at info with
              | Some expires => expires = 0 \/ now w + 5 * 60 * 1000 <= expires
              | None => True
              end) :
  exec getToken w = (Return (access_token info), w).
Proof.
  rewrite exec_getToken. unfold token_of.
  rewrite (stored_held w data info Hheld Hdata Hread).
  unfold in_refresh_window, truthy_number, MIN_TOKEN_LIFETIME.
  destruct (expires_at info) as [expires|]; [|reflexivity].
  destruct (Z.eqb_spec expires 0); [reflexivity|].
  destruct (Z.gtb_spec (now w + 5 * 60 * 1000) expires); [lia|reflexivity].
Qed.

(** X2.  A token stored with a lifetime of [e] seconds is returned by
    [getToken] without any request for as long as five minutes of that
    lifetime are left: [d] milliseconds after [storeToken], with
    [d + 300000 <= e * 1000], the stored access token comes back and the
    world is untouched. *)
Theorem storeToken_then_getToken (accessToken : string) (e : Z)
    (refreshToken : option string) (w : World) (d : Z) :
  let info := {| access_token := accessToken;
                 expires_at := Some (now w + e * 1000);
                 refresh_token := truthy_string refreshToken |} in
  let later :=
    set_now (fun t => t + d)
      (snd (exec (storeToken accessToken (Some e) refreshToken) w)) in
  forall (Htext : JSON_stringify info <> "")
         (Hread : JSON_parse (JSON_stringify info) = Some info)
         (Hd : 0 <= d)
         (Hleft : d + 5 * 60 * 1000 <= e * 1000),
  exec getToken later = (Return accessToken, later).
Proof.
  intros info later Htext Hread Hd Hleft.
  assert (He : truthy_number (Some e) = Some e).
  { cbn. destruct (Z.eqb_spec e 0); [lia|reflexivity]. }
  assert (Hlater : credentials later !! TOKEN_INFO_KEY = Some (JSON_stringify info)).
  { unfold later. rewrite exec_storeToken. cbn. unfold record_of. rewrite He.
    apply lookup_insert_eq. }
  rewrite exec_getToken. unfold token_of.
  rewrite (stored_held later _ info Hlater Htext Hread).
  assert (Hnow : now later = now w + d).
  { unfold later. rewrite exec_storeToken. reflexivity. }
  unfold in_refresh_window, truthy_number, MIN_TOKEN_LIFETIME. cbn [expires_at info].
  destruct (Z.eqb_spec (now w + e * 1000) 0); [reflexivity|].
  rewrite Hnow.
  destruct (Z.gtb_spec (now w + d + 5 * 60 * 1000) (now w + e * 1000));
    [lia|reflexivity].
Qed.

(** X3.  A token stored with a lifetime of less than five minutes is never
    served from the store: at any later time [getToken] does what
    [refreshToken] does for that record.  (The lifetime is not [0] and the
    computed [expires_at] is not [0]; both would make the token one that
    never expires.) *)
Theorem storeToken_short_lifetime (accessToken : string) (e : Z)
    (refreshToken : option string) (w : World) (d : Z) :
  let info := {| access_token := accessToken;
                 expires_at := Some (now w + e * 1000);
                 refresh_token := truthy_string refreshToken |} in
  let later :=
    set_now (fun t => t + d)
      (snd (exec (storeToken accessToken (Some e) refreshToken) w)) in
  forall (Htext : JSON_stringify info <> "")
         (Hread : JSON_parse (JSON_stringify info) = Some info)
         (Hlifetime : e <> 0)
         (Hexpires : now w + e * 1000 <> 0)
         (Hshort : e * 1000 < 5 * 60 * 1000)
         (Hd : 0 <= d),
  exec getToken later = exec (TokenManager.refreshToken (Some info)) later.
Proof.
  intros info later Htext Hread Hlifetime Hexpires Hshort Hd.
  assert (He : truthy_number (Some e) = Some e).
  { cbn. destruct (Z.eqb_spec e 0); [contradiction|reflexivity]. }
  assert (Hlater : credentials later !! TOKEN_INFO_KEY = Some (JSON_stringify info)).
  { unfold later. rewrite exec_storeToken. cbn. unfold record_of. rewrite He.
    apply lookup_insert_eq. }
  rewrite exec_getToken, exec_refreshToken. unfold token_of.
  rewrite (stored_held later _ info Hlater Htext Hread).
  assert (Hnow : now later = now w + d).
  { unfold later. rewrite exec_storeToken. reflexivity. }
  unfold in_refresh_window, truthy_number, MIN_TOKEN_LIFETIME. cbn [expires_at info].
  destruct (Z.eqb_spec (now w + e * 1000) 0); [contradiction|].
  rewrite Hnow.
  destruct (Z.gtb_spec (now w + d + 5 * 60 * 1000) (now w + e * 1000));
    [reflexivity|lia].
Qed.

(** X4.  When the stored token is within five minutes of its expiry (or past
    it) and the record has no refresh token, or an empty one, [getToken]
    does not return the stale token: it throws the error that [refreshToken]
    builds from "No refresh token available", without any request and
    without touching the vault.  The class receives the text as the [type]
    of the error; its message is the options object as a string. *)
Theorem getToken_stale_without_refresh_token (w : World) (data : string)
    (info : TokenInfo) (expires : Z)
    (Hheld : credentials w !! TOKEN_INFO_KEY = Some data)
    (Hdata : data <> "")
    (Hread : JSON_parse data = Some info)
    (Hexpires : expires_at info = Some expires)
    (Hset : expires <> 0)
    (Hstale : expires < now w + 5 * 60 * 1000)
    (Hnone : refresh_token info = None \/ refresh_token info = Some "") :
  exec getToken w
  = (Throw (PRAutomatorError "No refresh token available" "[object Object]" None),
     w).
Proof.
  rewrite exec_getToken. unfold token_of.
  rewrite (stored_held w data info Hheld Hdata Hread).
  unfold in_refresh_window, truthy_number, MIN_TOKEN_LIFETIME. rewrite Hexpires.
  destruct (Z.eqb_spec expires 0); [contradiction|].
  destruct (Z.gtb_spec (now w + 5 * 60 * 1000) expires); [|lia].
  unfold refreshed. cbn [mbind option_bind].
  destruct Hnone as [-> | ->]; reflexivity.
Qed.

(** X5.  When a refresh is due and the token endpoint does not answer [ok]
    (a response that is not [ok], or a rejected request), [getToken] throws
    the error that [refreshToken] builds from "Failed to refresh token"; one
    request has been sent and the stored record is the old one, untouched.
    The class receives the text as the [type] of the error, its message is
    the options object as a string, and the failure that caused it is not
    kept. *)
Theorem getToken_refresh_failure (w : World) (data : string) (info : TokenInfo)
    (expires : Z) (r : string)
    (Hheld : credentials w !! TOKEN_INFO_KEY = Some data)
    (Hdata : data <> "")
    (Hread : JSON_parse data = Some info)
    (Hexpires : expires_at info = Some expires)
    (Hset : expires <> 0)
    (Hstale : expires < now w + 5 * 60 * 1000)
    (Hrefresh : refresh_token info = Some r)
    (Hr : r <> "")
    (Hfailed : forall granted,
        access_token_endpoint (server w) (fetched w ++ [refresh_request r])
        <> Resolves (Ok granted)) :
  exec getToken w
  = (Throw (PRAutomatorError "Failed to refresh token" "[object Object]" None),
     sent (refresh_request r) w).
Proof.
  rewrite exec_getToken. unfold token_of.
  rewrite (stored_held w data info Hheld Hdata Hread).
  unfold in_refresh_window, truthy_number, MIN_TOKEN_LIFETIME. rewrite Hexpires.
  destruct (Z.eqb_spec expires 0); [contradiction|].
  destruct (Z.gtb_spec (now w + 5 * 60 * 1000) expires); [|lia].
  unfold refreshed. cbn [mbind option_bind]. rewrite Hrefresh. cbn [truthy_string].
  destruct (decide (r = "")); [contradiction|].
  destruct (access_token_endpoint _ _) as [e | [d | st err]];
    [reflexivity | destruct (Hfailed d); reflexivity | reflexivity].
Qed.


End TokenLifecycle.

(** ** [executeRequest], [waitForRateLimit] and [updateRateLimitInfo] *)

Section GatedRequests.
Context `{J : Json} {T : Type}.
Import TokenManager Reading.

Lemma refreshed_server (info : option TokenInfo) (w : World) :
  server (snd (refreshed info w)) = server w.
Proof.
  unfold refreshed. destruct (truthy_string _) as [r|]; [|reflexivity].
  destruct (access_token_endpoint _ _) as [e | [data | st err]]; reflexivity.
Qed.

Lemma token_of_server (w : World) : server (snd (token_of w)) = server w.
Proof.
  unfold token_of. destruct (stored w) as [info|]; [|reflexivity].
  destruct (in_refresh_window _ _); [apply refreshed_server|reflexivity].
Qed.

Lemma backoff_wait_nonneg (w : World) : 0 <= backoff_wait w.
Proof.
  unfold backoff_wait. destruct (0 <? backoff_left w); [|lia].
  pose proof (timer_delay_positive (backoff_left w)). lia.
Qed.

Lemma rate_limit_wait_nonneg (w : World) : 0 <= rate_limit_wait w.
Proof.
  unfold rate_limit_wait. destruct (0 <? reset_left w); [|lia].
  pose proof (timer_delay_positive (reset_left w)). lia.
Qed.

Lemma after_wait_clock (w : World) :
  now w <= now (after_wait w)
  /\ lastRequest (manager (after_wait w)) = now (after_wait w).
Proof.
  unfold after_wait, total_wait. cbn.
  pose proof (backoff_wait_nonneg w). pose proof (rate_limit_wait_nonneg w).
  split; [lia | reflexivity].
Qed.

Lemma after_wait_spacing (w : World) :
  backoff_left w <= TIMEOUT_MAX ->
  lastRequest (manager w) + backoffDelay (manager w) <= now (after_wait w).
Proof.
  intros Hrange. unfold after_wait, total_wait. cbn.
  pose proof (rate_limit_wait_nonneg w).
  unfold backoff_wait. unfold backoff_left in *.
  destruct (Z.ltb_spec 0 (backoffDelay (manager w)
                          - (now w - lastRequest (manager w)))).
  - rewrite timer_delay_in_range by lia. lia.
  - lia.
Qed.

Lemma after_wait_reset (w : World) (info : RateLimitInfo) :
  rateLimitInfo (manager w) = Some info -> remaining info = 0 ->
  reset info * 1000 - now w <= TIMEOUT_MAX ->
  reset info * 1000 <= now (after_wait w).
Proof.
  intros Hinfo Hzero Hrange. unfold after_wait, total_wait. cbn.
  pose proof (backoff_wait_nonneg w).
  unfold rate_limit_wait, reset_left. rewrite Hinfo, Hzero. cbn [Z.eqb].
  destruct (Z.ltb_spec 0 (reset info * 1000 - (now w + backoff_wait w))).
  - rewrite timer_delay_in_range by lia. lia.
  - lia.
Qed.

(** X7.  [updateRateLimitInfo] never throws, whatever [getToken] and the
    rate-limit endpoint do, and never touches [backoffDelay] or
    [lastRequest]; the quota snapshot either stays as it was or becomes the
    body of an [ok] response, which is then also written to the vault under
    [github.rate_limit]. *)
Theorem updateRateLimitInfo_never_throws (w : World) :
  let w' := snd (exec updateRateLimitInfo w) in
  fst (exec updateRateLimitInfo w) = Return tt
  /\ backoffDelay (manager w') = backoffDelay (manager w)
  /\ lastRequest (manager w') = lastRequest (manager w)
  /\ (rateLimitInfo (manager w') = rateLimitInfo (manager w)
      \/ exists history data,
           rate_limit_endpoint (server w) history = Resolves (Ok data)
           /\ rateLimitInfo (manager w') = Some data
           /\ credentials w' !! RATE_LIMIT_KEY = Some (JSON_stringify_rate data)).
Proof.
  cbn zeta. rewrite exec_updateRateLimitInfo. cbn [fst snd].
  split; [reflexivity|]. unfold rate_limit_updated.
  destruct (token_of_frame w) as (_ & Hm & _).
  pose proof (token_of_server w) as Hs.
  destruct (token_of w) as [[token | e] w1]; cbn [snd] in Hm, Hs.
  - destruct (rate_limit_endpoint (server w1) _) as [e | [data | st err]] eqn:Hreply;
      cbn; rewrite Hm; repeat split; auto.
    right. exists (fetched w1 ++ [rate_limit_request token]), data.
    rewrite <- Hs. split; [exact Hreply|]. split; [reflexivity|].
    apply lookup_insert_eq.
  - rewrite Hm. auto.
Qed.

(** X8.  When the first invocation of the callback succeeds,
    [executeRequest] returns its result, whatever happens to the rate-limit
    update that follows, and the callback has been invoked exactly once, with
    the token [getToken] gave. *)
Theorem executeRequest_success (f : string -> Async T) (w w2 w3 : World)
    (token : string) (result : T)
    (Hspy : forall tok v, calls (snd (exec (f tok) v)) = calls v)
    (Htoken : exec getToken (snd (exec waitForRateLimit w)) = (Return token, w2))
    (Hfirst : exec (spy f token) w2 = (Return result, w3)) :
  fst (exec (executeRequest (spy f)) w) = Return result
  /\ calls (snd (exec (executeRequest (spy f)) w)) = calls w ++ [token].
Proof.
  rewrite exec_executeRequest. unfold requested.
  rewrite exec_waitForRateLimit, exec_getToken in Htoken. cbn [snd] in Htoken.
  assert (Hc2 : calls w2 = calls w).
  { destruct (token_of_frame (after_wait w)) as (Hc & _).
    rewrite Htoken in Hc. exact Hc. }
  assert (Hc3 : calls w3 = calls w ++ [token]).
  { pose proof (f_equal snd Hfirst) as E. cbn [snd] in E. rewrite <- E.
    unfold spy. rewrite exec_bind, exec_modify.
    rewrite Hspy. cbn. rewrite Hc2. reflexivity. }
  rewrite Htoken, Hfirst. cbn [fst snd]. split; [reflexivity|].
  destruct (rate_limit_updated_frame
              (with_backoffDelay (fun _ => DEFAULT_BACKOFF) w3)) as (Hc & _).
  rewrite Hc. exact Hc3.
Qed.

(** X9.  When the first invocation of the callback fails with an error that
    [isRateLimitError] accepts (status 429, or a message containing "rate
    limit"), also one that [isAuthError] would accept as well,
    [executeRequest] throws the error it builds from "Rate limit exceeded":
    there is no refresh and no retry, the callback has been invoked once,
    and nothing but [backoffDelay], now doubled, differs from the world the
    callback left.  The class receives the text as the [type] of the error,
    its message is the options object as a string, and the error of the
    callback is not kept in it. *)
Theorem executeRequest_rate_limited (f : string -> Async T) (w w2 w3 : World)
    (token : string) (e : Exn)
    (Hspy : forall tok v, calls (snd (exec (f tok) v)) = calls v)
    (Htoken : exec getToken (snd (exec waitForRateLimit w)) = (Return token, w2))
    (Hfirst : exec (spy f token) w2 = (Throw e, w3))
    (Hlimit : isRateLimitError e = true) :
  exec (executeRequest (spy f)) w
  = (Throw (PRAutomatorError "Rate limit exceeded" "[object Object]" None),
     set_manager (fun m => {| rateLimitInfo := rateLimitInfo m;
                              lastRequest := lastRequest m;
                              backoffDelay := backoffDelay m * 2 |}) w3)
  /\ calls w3 = calls w ++ [token].
Proof.
  rewrite exec_executeRequest. unfold requested.
  rewrite exec_waitForRateLimit, exec_getToken in Htoken. cbn [snd] in Htoken.
  assert (Hc2 : calls w2 = calls w).
  { destruct (token_of_frame (after_wait w)) as (Hc & _).
    rewrite Htoken in Hc. exact Hc. }
  rewrite Htoken, Hfirst. unfold caught. rewrite Hlimit.
  split; [reflexivity|].
  pose proof (f_equal snd Hfirst) as E. cbn [snd] in E. rewrite <- E.
  unfold spy. rewrite exec_bind, exec_modify.
  rewrite Hspy. cbn. rewrite Hc2. reflexivity.
Qed.

(** X10.  When the first invocation of the callback fails with an error that
    is neither a rate-limit error nor an auth error, [executeRequest] throws
    that very error and leaves the world exactly as the callback left it:
    nothing is retried, wrapped or counted. *)
Theorem executeRequest_other_error (f : string -> Async T) (w w2 w3 : World)
    (token : string) (e : Exn)
    (Htoken : exec getToken (snd (exec waitForRateLimit w)) = (Return token, w2))
    (Hfirst : exec (f token) w2 = (Throw e, w3))
    (Hlimit : isRateLimitError e = false)
    (Hauth : isAuthError e = false) :
  exec (executeRequest f) w = (Throw e, w3).
Proof.
  rewrite exec_executeRequest. unfold requested.
  rewrite exec_waitForRateLimit, exec_getToken in Htoken. cbn [snd] in Htoken.
  rewrite Htoken, Hfirst. unfold caught. rewrite Hlimit, Hauth. reflexivity.
Qed.

(** X11.  When [getToken] fails inside [executeRequest] (no token, no refresh
    token, a failed refresh), its error leaves [executeRequest] unchanged and
    the callback is never invoked; the wait for the rate limit has been
    served all the same. *)
Theorem executeRequest_without_token (f : string -> Async T) (w w2 : World)
    (e : Exn)
    (Htoken : exec getToken (snd (exec waitForRateLimit w)) = (Throw e, w2)) :
  exec (executeRequest (spy f)) w = (Throw e, w2)
  /\ calls w2 = calls w
  /\ now w2 = now w + total_wait w.
Proof.
  rewrite exec_executeRequest. unfold requested.
  rewrite exec_waitForRateLimit, exec_getToken in Htoken. cbn [snd] in Htoken.
  destruct (token_of_frame (after_wait w)) as (Hc & _ & Hn).
  destruct (token_of_error _ _ _ Htoken) as (Hlimit & Hauth).
  rewrite Htoken in Hc, Hn |- *. cbn [snd] in Hc, Hn.
  unfold caught. rewrite Hlimit, Hauth.
  split; [reflexivity|]. split; [exact Hc|]. rewrite Hn. reflexivity.
Qed.

(** X12.  [waitForRateLimit] spaces requests, as long as the delays it asks
    for are within the range of the timers of the platform (a timer asked
    for more than [TIMEOUT_MAX] fires after 1 ms): when it returns, at least
    [backoffDelay] has passed since the time recorded for the previous
    request, the clock has not gone back, the new [lastRequest] is the time
    of its return, and if the quota snapshot says [remaining = 0] the reset
    time ([reset * 1000]) has been reached. *)
Theorem waitForRateLimit_spaces_requests (w : World)
    (Hbackoff : backoffDelay (manager w) - (now w - lastRequest (manager w))
                <= TIMEOUT_MAX)
    (Hreset : forall info,
        rateLimitInfo (manager w) = Some info -> remaining info = 0 ->
        reset info * 1000 - now w <= TIMEOUT_MAX) :
  let w' := snd (exec waitForRateLimit w) in
  lastRequest (manager w) + backoffDelay (manager w) <= now w'
  /\ now w <= now w'
  /\ lastRequest (manager w') = now w'
  /\ (forall info, rateLimitInfo (manager w) = Some info -> remaining info = 0 ->
      reset info * 1000 <= now w').
Proof.
  cbn zeta. rewrite exec_waitForRateLimit. cbn [snd].
  destruct (after_wait_clock w) as (H2 & H3).
  split; [apply after_wait_spacing; exact Hbackoff|].
  split; [exact H2|]. split; [exact H3|].
  intros info Hinfo Hzero.
  apply (after_wait_reset w info Hinfo Hzero (Hreset info Hinfo Hzero)).
Qed.

(** X13.  After a request that hit the rate limit, the next one is held back
    twice as long: if the first invocation of the callback fails with a
    rate-limit error, then in any later world with the same manager the
    callback of the next [executeRequest] is not invoked before
    [2 * backoffDelay] (the delay before the failure) has passed since the
    failed request was started.  The callback is assumed not to reach into
    the private fields of the manager, the clock not to have gone back, and
    the doubled delay to be within the range of the timers of the platform
    (a timer asked for more than [TIMEOUT_MAX] fires after 1 ms). *)
Theorem rate_limit_doubles_next_wait (request : string -> Async T)
    (w w2 w3 later : World) (token : string) (e : Exn)
    (Hprivate : forall tok v, manager (snd (exec (request tok) v)) = manager v)
    (Htoken : exec getToken (snd (exec waitForRateLimit w)) = (Return token, w2))
    (Hfirst : exec (request token) w2 = (Throw e, w3))
    (Hlimit : isRateLimitError e = true)
    (Hlater : manager later = manager (snd (exec (executeRequest request) w)))
    (Hclock : now (snd (exec waitForRateLimit w)) <= now later)
    (Hrange : 2 * backoffDelay (manager w) <= TIMEOUT_MAX) :
  let started := now (snd (exec waitForRateLimit w)) in
  lastRequest (manager later) = started
  /\ started + 2 * backoffDelay (manager w)
     <= now (snd (exec waitForRateLimit later)).
Proof.
  cbn zeta. rewrite exec_executeRequest in Hlater. unfold requested in Hlater.
  rewrite !exec_waitForRateLimit. rewrite exec_waitForRateLimit in Hclock.
  cbn [snd] in Hclock |- *.
  rewrite exec_waitForRateLimit, exec_getToken in Htoken. cbn [snd] in Htoken.
  destruct (token_of_frame (after_wait w)) as (_ & Hm2 & _).
  rewrite Htoken in Hm2, Hlater. cbn [snd] in Hm2.
  pose proof (Hprivate token w2) as Hm3. rewrite Hfirst in Hm3, Hlater.
  cbn [snd] in Hm3. unfold caught in Hlater. rewrite Hlimit in Hlater.
  cbn [snd] in Hlater.
  destruct (after_wait_clock w) as (_ & Hlast).
  assert (Hl : lastRequest (manager later) = now (after_wait w)).
  { rewrite Hlater. cbn. rewrite Hm3, Hm2. exact Hlast. }
  assert (Hb : backoffDelay (manager later) = backoffDelay (manager w) * 2).
  { rewrite Hlater. cbn. rewrite Hm3, Hm2. reflexivity. }
  split; [exact Hl|].
  pose proof (after_wait_spacing later) as Hspace.
  unfold backoff_left in Hspace. rewrite Hl, Hb in Hspace.
  assert (Hin : backoffDelay (manager w) * 2
                - (now later - now (after_wait w)) <= TIMEOUT_MAX) by lia.
  specialize (Hspace Hin). lia.
Qed.

End GatedRequests.

(** ** github-device-flow.ts: [initiate], [poll], [hasValidToken] *)

Section GitHubFlowMore.
Import GitHubDeviceFlow GitHubReading GitHubErrors.

(** X14.  When the device-code request is refused or rejected, [initiate]
    throws "Failed to initiate GitHub device flow: ..." with the failure as
    its cause, and apart from the request it has sent the world is as
    before: the fields of the flow are untouched, so a device code obtained
    earlier stays in place, and a flow that had none still has none. *)
Theorem initiate_failure (w : World)
    (Hfailed : forall data,
        device_code_endpoint (server w)
          (fetched w ++ [device_code_request (flow w)]) <> Resolves (Ok data)) :
  exists cause,
    exec initiate w
    = (Throw (initiate_failed cause), sent (device_code_request (flow w)) w)
    /\ match device_code_endpoint (server w)
               (fetched w ++ [device_code_request (flow w)]) with
       | Rejects e => cause = e
       | Resolves (NotOk statusText _) =>
           cause = Error ("Failed to initiate device flow: " +:+ statusText)
       | Resolves (Ok _) => False
       end.
Proof.
  unfold initiate. exec_simpl.
  destruct (device_code_endpoint _ _) as [e | [data | st err]] eqn:Hreply.
  - exec_simpl. exists e. split; reflexivity.
  - destruct (Hfailed data). reflexivity.
  - exec_simpl. eexists. split; reflexivity.
Qed.

(** X15.  Calling [initiate] again replaces the outstanding device
    authorization: after two successful calls the flow holds the device code,
    the expiry and the interval of the second response (the expiry counted
    from the time of the second call), and the token request that [poll]
    will send carries the second device code. *)
Theorem initiate_twice (w : World) (first second : DeviceCodeResponse) (gap : Z)
    (Hfirst : device_code_endpoint (server w)
                (fetched w ++ [device_code_request (flow w)])
              = Resolves (Ok first))
    (Hsecond : device_code_endpoint (server w)
                 (fetched w ++ [device_code_request (flow w);
                                device_code_request (flow w)])
               = Resolves (Ok second)) :
  let w1 := set_now (fun t => t + gap) (snd (exec initiate w)) in
  let w2 := snd (exec initiate w1) in
  fst (exec initiate w1)
  = Return {| v_verification_uri := verification_uri second;
              v_user_code := user_code second |}
  /\ deviceCode (flow w2) = Some (device_code second)
  /\ expiresAt (flow w2) = Some (now w + gap + expires_in second * 1000)
  /\ pollInterval (flow w2) = interval second * 1000
  /\ maxAttempts (flow w2) = maxAttempts (flow w)
  /\ body (access_token_request (flow w2))
     = [("client_id", clientId (flow w)); ("device_code", device_code second);
        ("grant_type", "urn:ietf:params:oauth:grant-type:device_code")].
Proof.
  cbn zeta. rewrite (exec_github_initiate_ok w first Hfirst). cbn [snd].
  set (w1 := set_now _ _).
  assert (Hreq : device_code_request (flow w1) = device_code_request (flow w))
    by reflexivity.
  assert (Hreply : device_code_endpoint (server w1)
                     (fetched w1 ++ [device_code_request (flow w1)])
                   = Resolves (Ok second)).
  { rewrite Hreq. cbn. rewrite <- app_assoc. exact Hsecond. }
  rewrite (exec_github_initiate_ok w1 second Hreply). cbn.
  repeat split.
Qed.

(** X16.  A [poll] that starts after the device code has expired throws
    "Device code has expired" without a single request; one that starts at
    the very instant of expiry, or before, goes into the loop.  The expiry is
    [expires_in * 1000] milliseconds after the call of [initiate]. *)
Theorem poll_after_expiry (w : World) (data : DeviceCodeResponse)
    (gap : Z) (fuel : nat)
    (Hreply : device_code_endpoint (server w)
                (fetched w ++ [device_code_request (flow w)])
              = Resolves (Ok data))
    (Hcode : device_code data <> "") :
  let started := set_now (fun t => t + gap) (snd (exec initiate w)) in
  (expires_in data * 1000 < gap ->
   exec (poll fuel) started = (Throw expired, started))
  /\ (gap <= expires_in data * 1000 ->
      exec (poll fuel) started = exec (poll_loop fuel 0) started).
Proof.
  cbn zeta. rewrite (exec_github_initiate_ok w data Hreply). cbn [snd].
  set (started := set_now _ _). rewrite exec_github_poll.
  change (deviceCode (flow started)) with (Some (device_code data)).
  cbn [truthy_string]. destruct (decide (device_code data = "")); [contradiction|].
  change (expiresAt (flow started)) with (Some (now w + expires_in data * 1000)).
  change (now started) with (now w + gap).
  split; intros Hgap;
    destruct (Z.gtb_spec (now w + gap) (now w + expires_in data * 1000));
    try lia; reflexivity.
Qed.

Lemma github_poll_loop_grant (k fuel : nat) (attempts : Z) (w : World)
    (data : TokenResponse) :
  pending_then_granted (server w) (fetched w) (access_token_request (flow w))
    k data ->
  attempts + Z.of_nat k < maxAttempts (flow w) ->
  (k < fuel)%nat ->
  exec (poll_loop fuel attempts) w
  = (Return (Some (tr_access_token data)),
     set_credentials (fun c => <["github_token" := tr_access_token data]> c)
       (sent (access_token_request (flow w)) (pending_turns k w))).
Proof.
  revert fuel attempts w.
  induction k as [|k IH]; intros fuel attempts w (Hpend & Hgrant) Ha Hf.
  - destruct fuel as [|fuel]; [lia|]. rewrite exec_github_poll_loop.
    destruct (Z.ltb_spec attempts (maxAttempts (flow w))); [|lia].
    unfold polled. cbn [replicate] in Hgrant. rewrite Hgrant. reflexivity.
  - destruct fuel as [|fuel]; [lia|]. rewrite exec_github_poll_loop.
    destruct (Z.ltb_spec attempts (maxAttempts (flow w))); [|lia].
    unfold polled. destruct (Hpend O) as (st & refused & Hreply & Hcode); [lia|].
    cbn [replicate] in Hreply. rewrite Hreply.
    destruct (decide _); [|contradiction].
    set (w' := slept _ _).
    rewrite (IH fuel (attempts + 1) w').
    + reflexivity.
    + split.
      * intros i Hi. destruct (Hpend (S i)) as (st' & refused' & Hr & Hc); [lia|].
        exists st', refused'. split; [|exact Hc].
        cbn [w' slept sent set_now set_timeouts set_fetched fetched server flow].
        rewrite <- app_assoc. exact Hr.
      * cbn [w' slept sent set_now set_timeouts set_fetched fetched server flow].
        rewrite <- app_assoc. exact Hgrant.
    + cbn. lia.
    + lia.
Qed.

(** X17.  [poll] returns the first token that is granted: when the token
    endpoint answers [authorization_pending] [k] times ([k] less than
    [maxAttempts]) and then grants a token, [poll] has sent [k + 1] token
    requests, waited [pollInterval] after each of the first [k], stored the
    token in the vault under [github_token] and returned it. *)
Theorem poll_returns_first_grant (k fuel : nat) (w : World) (code : string)
    (data : TokenResponse)
    (Hcode : truthy_string (deviceCode (flow w)) = Some code)
    (Hlive : match expiresAt (flow w) with
             | Some expires => now w <= expires
             | None => True
             end)
    (Hserver : pending_then_granted (server w) (fetched w)
                 (access_token_request (flow w)) k data)
    (Hk : Z.of_nat k < maxAttempts (flow w))
    (Hfuel : (k < fuel)%nat) :
  let r := exec (poll fuel) w in
  fst r = Return (Some (tr_access_token data))
  /\ fetched (snd r)
     = fetched w ++ replicate (S k) (access_token_request (flow w))
  /\ timeouts (snd r) = timeouts w ++ replicate k (pollInterval (flow w))
  /\ now (snd r) = now w + Z.of_nat k * timer_delay (pollInterval (flow w))
  /\ credentials (snd r)
     = <["github_token" := tr_access_token data]> (credentials w).
Proof.
  cbn zeta. rewrite exec_github_poll, Hcode.
  assert (Hnot : match expiresAt (flow w) with
                 | Some expires => now w >? expires
                 | None => false
                 end = false).
  { destruct (expiresAt (flow w)) as [expires|]; [|reflexivity].
    destruct (Z.gtb_spec (now w) expires); [lia|reflexivity]. }
  rewrite Hnot.
  rewrite (github_poll_loop_grant k fuel 0 w data Hserver) by lia.
  cbn [fst snd credentials set_credentials sent set_fetched fetched timeouts now].
  rewrite pending_turns_fetched, pending_turns_timeouts, pending_turns_now,
    pending_turns_credentials, ?pending_turns_flow.
  repeat split.
  rewrite <- app_assoc. f_equal.
  change (replicate k ?x ++ [?x]) with (replicate k x ++ replicate 1 x).
  rewrite <- replicate_add. f_equal. lia.
Qed.

Lemma github_poll_loop_spins (fuel : nat) (attempts : Z) (w : World) :
  always_refused (server w) ->
  attempts < maxAttempts (flow w) - 1 ->
  exec (poll_loop fuel attempts) w
  = (Return None,
     set_fetched (fun l => l ++ replicate fuel (access_token_request (flow w))) w).
Proof.
  revert w. induction fuel as [|fuel IH]; intros w Hsrv Ha.
  - cbn. f_equal. apply world_ext; cbn; try reflexivity.
    rewrite app_nil_r. reflexivity.
  - rewrite exec_github_poll_loop.
    destruct (Z.ltb_spec attempts (maxAttempts (flow w))); [|lia].
    unfold polled, swallowed.
    destruct (Hsrv (fetched w ++ [access_token_request (flow w)]))
      as (st & refused & -> & Hcode).
    destruct (decide _); [contradiction|].
    cbn [flow sent set_fetched].
    destruct (Z.eqb_spec attempts (maxAttempts (flow w) - 1)); [lia|].
    rewrite IH; [|exact Hsrv|exact Ha].
    f_equal. apply world_ext; cbn; try reflexivity.
    rewrite <- app_assoc. reflexivity.
Qed.

(** X18.  A refusal that is not [authorization_pending] never uses up an
    attempt.  When the token endpoint refuses every request in that way and
    more than one attempt is allowed, [poll] does not come to an end: after
    any number [n] of turns of its loop it has sent [n] token requests, has
    started no timer, the clock has not moved, and it has neither returned
    nor thrown. *)
Theorem poll_spins_on_refusals (n : nat) (w : World) (code : string)
    (Hcode : truthy_string (deviceCode (flow w)) = Some code)
    (Hlive : match expiresAt (flow w) with
             | Some expires => now w <= expires
             | None => True
             end)
    (Hserver : always_refused (server w))
    (Hmax : 1 < maxAttempts (flow w)) :
  let r := exec (poll n) w in
  fst r = Return None
  /\ fetched (snd r) = fetched w ++ replicate n (access_token_request (flow w))
  /\ timeouts (snd r) = timeouts w
  /\ now (snd r) = now w
  /\ credentials (snd r) = credentials w.
Proof.
  cbn zeta. rewrite exec_github_poll, Hcode.
  assert (Hnot : match expiresAt (flow w) with
                 | Some expires => now w >? expires
                 | None => false
                 end = false).
  { destruct (expiresAt (flow w)) as [expires|]; [|reflexivity].
    destruct (Z.gtb_spec (now w) expires); [lia|reflexivity]. }
  rewrite Hnot, github_poll_loop_spins; [|exact Hserver|lia].
  repeat split.
Qed.

(** X19.  [hasValidToken] never throws.  Without a stored token (none, or
    an empty one) it answers [false] and sends nothing; with one it sends a
    single request to the user endpoint with that token as bearer, and
    answers [true] exactly when the response is [ok]: a response that is not
    [ok] and a rejected request both give [false]. *)
Theorem hasValidToken_answer (w : World) :
  match truthy_string (credentials w !! "github_token") with
  | None => exec hasValidToken w = (Return false, w)
  | Some token =>
      exec hasValidToken w
      = (Return match user_endpoint (server w)
                        (fetched w ++ [user_request token]) with
                | Resolves (Ok _) => true
                | _ => false
                end,
         sent (user_request token) w)
  end.
Proof.
  unfold hasValidToken, getStoredToken, getSecret, vault_get. exec_simpl.
  destruct (truthy_string _) as [token|]; [|reflexivity]. exec_simpl.
  destruct (user_endpoint _ _) as [e | [[] | st err]]; exec_simpl; reflexivity.
Qed.

End GitHubFlowMore.

(** ** device-flow.ts: [initiate], [poll], [revoke] *)

Section DeviceFlowMore.
Context `{J : Json}.
Import DeviceFlow DeviceFlowErrors.

Lemma waited_turns_fields (n : nat) (req : Request) (ms : Z) (w : World) :
  fetched (waited_turns n req ms w) = fetched w ++ replicate n req
  /\ timeouts (waited_turns n req ms w) = timeouts w ++ replicate n ms
  /\ now (waited_turns n req ms w) = now w + Z.of_nat n * timer_delay ms
  /\ credentials (waited_turns n req ms w) = credentials w
  /\ flow (waited_turns n req ms w) = flow w
  /\ server (waited_turns n req ms w) = server w.
Proof.
  revert w. induction n as [|n IH]; intros w; cbn [waited_turns].
  - cbn. rewrite !app_nil_r. repeat split; lia.
  - destruct (IH (slept ms (sent req w))) as (H1 & H2 & H3 & H4 & H5 & H6).
    rewrite H1, H2, H3, H4, H5, H6. cbn. rewrite <- !app_assoc.
    repeat split; lia.
Qed.

Lemma deviceflow_rejected (attempts : Z) (w : World) (status : option Z)
    (message : option string) :
  access_token_endpoint (server w) (fetched w ++ [access_token_request (flow w)])
  = Rejects (Rejection status message) ->
  exec (poll_iteration attempts) w
  = (Return (Continue (attempts + 1)),
     slept (pollInterval (flow w)) (sent (access_token_request (flow w)) w)).
Proof.
  intros Hreply. unfold poll_iteration. exec_simpl. rewrite Hreply.
  exec_simpl. reflexivity.
Qed.

Lemma deviceflow_poll_loop_never_ok (n fuel : nat) (attempts : Z) (w : World) :
  never_ok (server w) ->
  attempts + Z.of_nat n = maxAttempts (flow w) ->
  (n < fuel)%nat ->
  exec (poll_loop fuel attempts) w
  = (Throw timeout,
     waited_turns n (access_token_request (flow w)) (pollInterval (flow w)) w).
Proof.
  revert fuel attempts w. induction n as [|n IH]; intros fuel attempts w Hs Ha Hf.
  - destruct fuel as [|fuel]; [lia|]. rewrite exec_deviceflow_poll_loop.
    destruct (Z.ltb_spec attempts (maxAttempts (flow w))); [lia|]. reflexivity.
  - destruct fuel as [|fuel]; [lia|]. rewrite exec_deviceflow_poll_loop.
    destruct (Z.ltb_spec attempts (maxAttempts (flow w))); [|lia].
    assert (Hit : exec (poll_iteration attempts) w
                  = (Return (Continue (attempts + 1)),
                     slept (pollInterval (flow w))
                       (sent (access_token_request (flow w)) w))).
    { destruct (Hs (fetched w ++ [access_token_request (flow w)]))
        as [(st & refused & Hreply) | (status & message & Hreply)].
      - apply (deviceflow_not_ok attempts w st refused Hreply).
      - apply (deviceflow_rejected attempts w status message Hreply). }
    rewrite Hit. cbn [waited_turns].
    apply (IH fuel (attempts + 1)
             (slept (pollInterval (flow w))
                (sent (access_token_request (flow w)) w)));
      [exact Hs | cbn; lia | lia].
Qed.

(** X20.  When the token endpoint never answers [ok] (responses that are not
    [ok], or rejected requests), a [poll] that starts before the expiry makes
    exactly [maxAttempts] token requests, starts a timer of the configured
    [pollInterval] after each of them, and then throws the error it builds
    from "Authentication timeout. Please try again."; nothing is stored.
    The expiry of the device code is not looked at again inside the loop.
    The class receives the text as the [type] of the error; its message is
    the options object as a string. *)
Theorem deviceflow_poll_times_out (fuel : nat) (w : World) (code : string)
    (expires : Z)
    (Hcode : truthy_string (deviceCode (flow w)) = Some code)
    (Hexpires : expiresAt (flow w) = Some expires)
    (Hlive : now w <= expires)
    (Hserver : never_ok (server w))
    (Hmax : 0 <= maxAttempts (flow w))
    (Hfuel : (Z.to_nat (maxAttempts (flow w)) < fuel)%nat) :
  let n := Z.to_nat (maxAttempts (flow w)) in
  let r := exec (poll fuel) w in
  fst r = Throw (PRAutomatorError "Authentication timeout. Please try again."
                   "[object Object]" None)
  /\ fetched (snd r) = fetched w ++ replicate n (access_token_request (flow w))
  /\ timeouts (snd r) = timeouts w ++ replicate n (pollInterval (flow w))
  /\ now (snd r) = now w + maxAttempts (flow w) * timer_delay (pollInterval (flow w))
  /\ credentials (snd r) = credentials w.
Proof.
  cbn zeta. unfold poll, Date_now. exec_simpl. rewrite Hcode, Hexpires.
  exec_simpl. destruct (Z.gtb_spec (now w) expires); [lia|].
  rewrite (deviceflow_poll_loop_never_ok (Z.to_nat (maxAttempts (flow w)))
             fuel 0 w Hserver) by lia.
  cbn [fst snd].
  destruct (waited_turns_fields (Z.to_nat (maxAttempts (flow w)))
              (access_token_request (flow w)) (pollInterval (flow w)) w)
    as (H1 & H2 & H3 & H4 & _).
  rewrite H1, H2, H3, H4. repeat split. rewrite Z2Nat.id by lia. reflexivity.
Qed.

(** X21.  A granted token that fails verification is not stored and is not
    retried: when the token endpoint answers [ok] and the user endpoint does
    not, the loop throws at once the error that [verifyToken] builds from
    "Invalid access token", with two requests sent, no timer started and the
    vault untouched.  The class receives the text as the [type] of the
    error, its message is the options object as a string, and the failure of
    the verification is not kept in it. *)
Theorem deviceflow_poll_invalid_token (fuel : nat) (attempts : Z) (w : World)
    (data : TokenResponse)
    (Hturn : attempts < maxAttempts (flow w))
    (Hgranted : access_token_endpoint (server w)
                  (fetched w ++ [access_token_request (flow w)])
                = Resolves (Ok data))
    (Hinvalid : forall u,
        user_endpoint (server w)
          (fetched w ++ [access_token_request (flow w);
                         verify_request (tr_access_token data)])
        <> Resolves (Ok u)) :
  exec (poll_loop (S fuel) attempts) w
  = (Throw (PRAutomatorError "Invalid access token" "[object Object]" None),
     sent (verify_request (tr_access_token data))
       (sent (access_token_request (flow w)) w)).
Proof.
  rewrite exec_deviceflow_poll_loop.
  destruct (Z.ltb_spec attempts (maxAttempts (flow w))); [|lia].
  unfold poll_iteration, verifyToken. exec_simpl. rewrite Hgranted. exec_simpl.
  cbn [server fetched sent set_fetched]. rewrite <- app_assoc. cbn [app].
  destruct (user_endpoint _ _) as [e | [u | st err]] eqn:Hverify.
  - exec_simpl. reflexivity.
  - destruct (Hinvalid u). reflexivity.
  - exec_simpl. reflexivity.
Qed.


(** X23.  [initiate] takes the device code and the expiry from the response
    and nothing else: the [interval] the server asks for is ignored, and
    [pollInterval], [maxAttempts], [clientId] and [scopes] stay as the
    constructor set them, whatever the response.  When the request is
    refused or rejected it throws the error it builds from "Failed to
    initiate device flow", and the fields of the flow are all as before.
    The class receives the text as the [type] of the error, its message is
    the options object as a string, and the failure is not kept in it. *)
Theorem deviceflow_initiate_fields (w : World) :
  let w' := snd (exec initiate w) in
  pollInterval (flow w') = pollInterval (flow w)
  /\ maxAttempts (flow w') = maxAttempts (flow w)
  /\ clientId (flow w') = clientId (flow w)
  /\ scopes (flow w') = scopes (flow w)
  /\ match device_code_endpoint (server w)
             (fetched w ++ [device_code_request (flow w)]) with
     | Resolves (Ok data) =>
         fst (exec initiate w)
         = Return {| v_verification_uri := verification_uri data;
                     v_user_code := user_code data |}
         /\ deviceCode (flow w') = Some (device_code data)
         /\ expiresAt (flow w') = Some (now w + expires_in data * 1000)
     | _ =>
         fst (exec initiate w)
         = Throw (PRAutomatorError "Failed to initiate device flow"
                    "[object Object]" None)
         /\ flow w' = flow w
     end.
Proof.
  cbn zeta. unfold initiate, Date_now. exec_simpl.
  destruct (device_code_endpoint _ _) as [e | [data | st err]]; exec_simpl;
    cbn; repeat split.
Qed.

End DeviceFlowMore.

(** *** [revoke] of device-flow.ts *)

Section DeviceFlowRevoke.
Context `{J : Json}.
Import TokenManager Reading DeviceFlow.

Lemma keeps_keys_same (w w' : World) :
  credentials w' = credentials w -> keeps_keys w w'.
Proof. intros E key. rewrite E. auto. Qed.

Lemma keeps_keys_insert (w w' : World) (key value : string) :
  credentials w' = <[key := value]> (credentials w) -> keeps_keys w w'.
Proof.
  intros E k Hk. rewrite E. destruct (decide (key = k)) as [->|Hne].
  - rewrite lookup_insert_eq. eauto.
  - rewrite lookup_insert_ne by exact Hne. exact Hk.
Qed.

Lemma keeps_keys_trans (w1 w2 w3 : World) :
  keeps_keys w1 w2 -> keeps_keys w2 w3 -> keeps_keys w1 w3.
Proof. intros H12 H23 key Hk. apply H23, H12, Hk. Qed.

Lemma refreshed_keeps_keys (info : option TokenInfo) (w : World) :
  keeps_keys w (snd (refreshed info w)).
Proof.
  unfold refreshed. destruct (truthy_string _) as [r|];
    [|apply keeps_keys_same; reflexivity].
  destruct (access_token_endpoint _ _) as [e | [data | st err]]; cbn [snd].
  - apply keeps_keys_same. reflexivity.
  - eapply keeps_keys_insert. reflexivity.
  - apply keeps_keys_same. reflexivity.
Qed.

Lemma token_of_keeps_keys (w : World) : keeps_keys w (snd (token_of w)).
Proof.
  unfold token_of. destruct (stored w) as [info|];
    [|apply keeps_keys_same; reflexivity].
  destruct (in_refresh_window _ _);
    [apply refreshed_keeps_keys | apply keeps_keys_same; reflexivity].
Qed.

Lemma rate_limit_updated_keeps_keys (w : World) :
  keeps_keys w (rate_limit_updated w).
Proof.
  unfold rate_limit_updated. pose proof (token_of_keeps_keys w) as Hk.
  destruct (token_of w) as [[token | e] w1]; cbn [snd] in Hk; [|exact Hk].
  eapply keeps_keys_trans; [exact Hk|].
  destruct (rate_limit_endpoint _ _) as [e | [data | st err]].
  - apply keeps_keys_same. reflexivity.
  - eapply keeps_keys_insert. reflexivity.
  - apply keeps_keys_same. reflexivity.
Qed.

Lemma exec_revoke_callback (token : string) (w : World) :
  exec (revoke_callback token) w
  = (match revoke_endpoint (server w) (fetched w ++ [revoke_request token]) with
     | Rejects e => Throw e
     | Resolves (Ok _) => Return tt
     | Resolves (NotOk statusText _) =>
         Throw (Error ("Token revocation failed: " +:+ statusText))
     end, sent (revoke_request token) w).
Proof.
  unfold revoke_callback. exec_simpl.
  destruct (revoke_endpoint _ _) as [e | [[] | st err]]; exec_simpl; reflexivity.
Qed.

Lemma revoke_callback_keeps_keys (token : string) (w : World) :
  keeps_keys w (snd (exec (revoke_callback token) w)).
Proof. rewrite exec_revoke_callback. apply keeps_keys_same. reflexivity. Qed.

Lemma caught_keeps_keys (e : Exn) (w : World) :
  keeps_keys w (snd (caught revoke_callback e w)).
Proof.
  unfold caught. destruct (isRateLimitError e);
    [apply keeps_keys_same; reflexivity|].
  destruct (isAuthError e); [|apply keeps_keys_same; reflexivity].
  pose proof (refreshed_keeps_keys (stored w) w) as Hk.
  destruct (refreshed (stored w) w) as [[token | e'] w']; cbn [snd] in Hk |- *.
  - eapply keeps_keys_trans; [exact Hk | apply revoke_callback_keeps_keys].
  - exact Hk.
Qed.

(** X24.  [revoke] of device-flow.ts never removes anything from the vault:
    every key that was present before the call, the stored token record
    among them, is still present after it, whether the server confirmed the
    revocation or not. *)
Theorem deviceflow_revoke_removes_nothing (w : World) (key : string)
    (Hpresent : is_Some (credentials w !! key)) :
  is_Some (credentials (snd (exec revoke w)) !! key).
Proof.
  revert key Hpresent. change (keeps_keys w (snd (exec revoke w))).
  unfold revoke. rewrite exec_await, exec_executeRequest. unfold requested.
  assert (Hwait : keeps_keys w (after_wait w))
    by (apply keeps_keys_same; reflexivity).
  pose proof (token_of_keeps_keys (after_wait w)) as Htok.
  destruct (token_of (after_wait w)) as [[token | e] w2]; cbn [snd] in Htok.
  - pose proof (revoke_callback_keeps_keys token w2) as Hcb.
    destruct (exec (revoke_callback token) w2) as [[[] | e] w3]; cbn [snd] in Hcb |- *.
    + eapply keeps_keys_trans; [exact Hwait|].
      eapply keeps_keys_trans; [exact Htok|].
      eapply keeps_keys_trans; [exact Hcb|].
      eapply keeps_keys_trans; [|apply rate_limit_updated_keeps_keys].
      apply keeps_keys_same. reflexivity.
    + eapply keeps_keys_trans; [exact Hwait|].
      eapply keeps_keys_trans; [exact Htok|].
      eapply keeps_keys_trans; [exact Hcb|]. apply caught_keeps_keys.
  - eapply keeps_keys_trans; [exact Hwait|].
    eapply keeps_keys_trans; [exact Htok|]. apply caught_keeps_keys.
Qed.

(** X25.  [revoke] of device-flow.ts with no token record in the vault does
    not return quietly: it throws the error that [getToken] builds from "No
    token available", after the wait for the rate limit and without sending
    any request.  The class receives the text as the [type] of the error;
    its message is the options object as a string. *)
Theorem deviceflow_revoke_without_token (w : World)
    (Hnone : credentials w !! TOKEN_INFO_KEY = None) :
  let r := exec revoke w in
  fst r = Throw (PRAutomatorError "No token available" "[object Object]" None)
  /\ fetched (snd r) = fetched w
  /\ credentials (snd r) = credentials w
  /\ now (snd r) = now w + total_wait w.
Proof.
  cbn zeta. unfold revoke. rewrite exec_await, exec_executeRequest.
  unfold requested, token_of, stored.
  change (credentials (after_wait w)) with (credentials w). rewrite Hnone.
  cbn. repeat split.
Qed.

End DeviceFlowRevoke.

(** ** The further properties on concrete runs *)

Section TokenLifecycleRuns.
Import TokenManager Reading Sample Scenario RaceScenario MoreScenario.
#[local] Existing Instance PlainJson.json.

Lemma getToken_serves_valid_token_witness :
  exec getToken retry_world = (Return "old-token", retry_world).
Proof.
  apply (getToken_serves_valid_token retry_world
           (PlainJson.stringify (valid_record 0)) (valid_record 0)).
  - reflexivity.
  - vm_compute. congruence.
  - vm_compute. reflexivity.
  - cbn. right. lia.
Defined.

Lemma storeToken_then_getToken_witness :
  let later :=
    set_now (fun t => t + 3300000)
      (snd (exec (storeToken "t1" (Some 3600) (Some "r1")) (world offline 1000 ∅))) in
  exec getToken later = (Return "t1", later).
Proof.
  cbn zeta.
  apply (storeToken_then_getToken "t1" 3600 (Some "r1") (world offline 1000 ∅)
           3300000).
  - vm_compute. congruence.
  - vm_compute. reflexivity.
  - lia.
  - lia.
Defined.

Lemma storeToken_short_lifetime_witness :
  let info := {| access_token := "t1"; expires_at := Some (1000 + 60 * 1000);
                 refresh_token := Some "r1" |} in
  let later :=
    set_now (fun t => t + 0)
      (snd (exec (storeToken "t1" (Some 60) (Some "r1")) (world refreshing 1000 ∅))) in
  exec getToken later = exec (refreshToken (Some info)) later.
Proof.
  cbn zeta.
  apply (storeToken_short_lifetime "t1" 60 (Some "r1") (world refreshing 1000 ∅) 0).
  - vm_compute. congruence.
  - vm_compute. reflexivity.
  - lia.
  - cbn. lia.
  - lia.
  - lia.
Defined.

Lemma getToken_stale_without_refresh_token_witness :
  let w := world refreshing 1000000 (vault_with (stale_record 1000000)) in
  exec getToken w
  = (Throw (PRAutomatorError "No refresh token available" "[object Object]" None),
     w).
Proof.
  cbn zeta.
  apply (getToken_stale_without_refresh_token
           (world refreshing 1000000 (vault_with (stale_record 1000000)))
           (PlainJson.stringify (stale_record 1000000)) (stale_record 1000000)
           1060000).
  - reflexivity.
  - vm_compute. congruence.
  - vm_compute. reflexivity.
  - reflexivity.
  - lia.
  - cbn. lia.
  - left. reflexivity.
Defined.

Lemma getToken_refresh_failure_witness :
  let w := world offline 1000000 (vault_with (expiring_record 1000000)) in
  exec getToken w
  = (Throw (PRAutomatorError "Failed to refresh token" "[object Object]" None),
     sent (refresh_request "refresh-token") w).
Proof.
  cbn zeta.
  apply (getToken_refresh_failure
           (world offline 1000000 (vault_with (expiring_record 1000000)))
           (PlainJson.stringify (expiring_record 1000000))
           (expiring_record 1000000) 1060000 "refresh-token").
  - reflexivity.
  - vm_compute. congruence.
  - vm_compute. reflexivity.
  - reflexivity.
  - lia.
  - cbn. lia.
  - reflexivity.
  - congruence.
  - intros granted. vm_compute. congruence.
Defined.


End TokenLifecycleRuns.

Section GatedRequestRuns.
Import TokenManager Reading Sample Scenario MoreScenario.
#[local] Existing Instance PlainJson.json.

Lemma executeRequest_success_witness :
  fst (exec (executeRequest (spy succeeds)) classic_world) = Return "success"
  /\ calls (snd (exec (executeRequest (spy succeeds)) classic_world))
     = ["ghp_classic"].
Proof.
  pose (w2 := snd (exec waitForRateLimit classic_world)).
  pose (w3 := snd (exec (spy succeeds "ghp_classic") w2)).
  apply (executeRequest_success succeeds classic_world w2 w3 "ghp_classic"
           "success").
  - intros tok v. reflexivity.
  - vm_compute. reflexivity.
  - vm_compute. reflexivity.
Defined.

Lemma executeRequest_rate_limited_witness :
  fst (exec (executeRequest (spy always_limited)) classic_world)
  = Throw (PRAutomatorError "Rate limit exceeded" "[object Object]" None)
  /\ calls (snd (exec (executeRequest (spy always_limited)) classic_world))
     = ["ghp_classic"].
Proof.
  pose (w2 := snd (exec waitForRateLimit classic_world)).
  pose (w3 := snd (exec (spy always_limited "ghp_classic") w2)).
  destruct (executeRequest_rate_limited always_limited classic_world w2 w3
              "ghp_classic" too_many_requests) as (Hrun & Hcalls).
  - intros tok v. reflexivity.
  - vm_compute. reflexivity.
  - vm_compute. reflexivity.
  - reflexivity.
  - rewrite Hrun. split; [reflexivity | exact Hcalls].
Defined.

Lemma executeRequest_other_error_witness :
  exec (executeRequest fails) classic_world
  = (Throw server_error, snd (exec waitForRateLimit classic_world)).
Proof.
  apply (executeRequest_other_error fails classic_world
           (snd (exec waitForRateLimit classic_world))
           (snd (exec waitForRateLimit classic_world)) "ghp_classic" server_error).
  - vm_compute. reflexivity.
  - reflexivity.
  - reflexivity.
  - reflexivity.
Defined.

Lemma executeRequest_without_token_witness :
  fst (exec (executeRequest (spy succeeds)) (world offline 0 ∅)) = Throw no_token
  /\ calls (snd (exec (executeRequest (spy succeeds)) (world offline 0 ∅))) = [].
Proof.
  destruct (executeRequest_without_token succeeds (world offline 0 ∅)
              (snd (exec waitForRateLimit (world offline 0 ∅))) no_token)
    as (Hrun & Hcalls & _).
  - vm_compute. reflexivity.
  - rewrite Hrun. split; [reflexivity | exact Hcalls].
Defined.

Lemma rate_limit_doubles_next_wait_witness :
  let later := snd (exec (executeRequest always_limited) classic_world) in
  now (snd (exec waitForRateLimit classic_world)) + 2 * 1000
  <= now (snd (exec waitForRateLimit later)).
Proof.
  cbn zeta.
  destruct (rate_limit_doubles_next_wait always_limited classic_world
              (snd (exec waitForRateLimit classic_world))
              (snd (exec waitForRateLimit classic_world))
              (snd (exec (executeRequest always_limited) classic_world))
              "ghp_classic" too_many_requests) as (_ & Hwait).
  - intros tok v. reflexivity.
  - vm_compute. reflexivity.
  - reflexivity.
  - reflexivity.
  - reflexivity.
  - vm_compute. congruence.
  - vm_compute. congruence.
  - exact Hwait.
Defined.

Lemma waitForRateLimit_spaces_requests_witness :
  let w' := snd (exec waitForRateLimit quota_exhausted) in
  999400 + 1000 <= now w' /\ 1000 * 1000 <= now w'.
Proof.
  cbn zeta.
  destruct (waitForRateLimit_spaces_requests quota_exhausted)
    as (Hspace & _ & _ & Hreset).
  - vm_compute. congruence.
  - intros info Hinfo Hzero. injection Hinfo as <-. vm_compute. congruence.
  - split; [exact Hspace|].
    apply (Hreset {| limit := 5000; remaining := 0; reset := 1000 |});
      reflexivity.
Defined.

End GatedRequestRuns.

Section GitHubFlowMoreRuns.
Import GitHubDeviceFlow GitHubReading GitHubErrors Sample FlowScenario MoreScenario.

Lemma initiate_failure_witness :
  let w := world offline 1000 ∅ in
  exists cause,
    exec initiate w
    = (Throw (initiate_failed cause), sent (device_code_request (flow w)) w)
    /\ cause = Error "fetch failed".
Proof.
  cbn zeta. apply (initiate_failure (world offline 1000 ∅)).
  intros data. vm_compute. congruence.
Defined.

Lemma initiate_twice_witness :
  let w := world never_authorized 1000 ∅ in
  let w1 := set_now (fun t => t + 5000) (snd (exec initiate w)) in
  expiresAt (flow (snd (exec initiate w1))) = Some (1000 + 5000 + 900 * 1000)
  /\ pollInterval (flow (snd (exec initiate w1))) = 5 * 1000.
Proof.
  cbn zeta.
  destruct (initiate_twice (world never_authorized 1000 ∅) device_code_granted
              device_code_granted 5000) as (_ & _ & Hexpires & Hinterval & _).
  - reflexivity.
  - reflexivity.
  - split; [exact Hexpires | exact Hinterval].
Defined.

Lemma poll_after_expiry_witness :
  let started :=
    set_now (fun t => t + 900001)
      (snd (exec initiate (world never_authorized 1000 ∅))) in
  exec (poll 13) started = (Throw expired, started).
Proof.
  cbn zeta.
  destruct (poll_after_expiry (world never_authorized 1000 ∅) device_code_granted
              900001 13) as (Hlate & _).
  - reflexivity.
  - vm_compute. congruence.
  - apply Hlate. cbn. lia.
Defined.

Lemma poll_returns_first_grant_witness :
  let r := exec (poll 5) (initiated_with granted_after_two) in
  fst r = Return (Some "gho_mock123")
  /\ timeouts (snd r) = [5000; 5000]
  /\ credentials (snd r) !! "github_token" = Some "gho_mock123".
Proof.
  cbn zeta.
  destruct (poll_returns_first_grant 2 5 (initiated_with granted_after_two) "d1"
              granted) as (Hreturn & _ & Htimeouts & _ & Hvault).
  - reflexivity.
  - vm_compute. congruence.
  - split.
    + intros i Hi. exists "Bad Request", (refused_with "authorization_pending").
      destruct i as [|[|i]]; [split; reflexivity | split; reflexivity | lia].
    + reflexivity.
  - vm_compute. reflexivity.
  - lia.
  - split; [exact Hreturn|]. split; [exact Htimeouts|].
    rewrite Hvault. reflexivity.
Defined.

Lemma poll_spins_on_refusals_witness :
  let r := exec (poll 40) (initiated_with always_denied) in
  fst r = Return None
  /\ length (fetched (snd r)) = 41%nat
  /\ timeouts (snd r) = [].
Proof.
  cbn zeta.
  destruct (poll_spins_on_refusals 40 (initiated_with always_denied) "d1")
    as (Hspin & Hfetched & Htimeouts & _).
  - reflexivity.
  - vm_compute. congruence.
  - intros history. exists "Bad Request", (refused_with "access_denied").
    split; [reflexivity | vm_compute; congruence].
  - vm_compute. reflexivity.
  - split; [exact Hspin|]. split; [rewrite Hfetched; reflexivity | exact Htimeouts].
Defined.

End GitHubFlowMoreRuns.

Section DeviceFlowMoreRuns.
Import DeviceFlow DeviceFlowErrors Sample Scenario FlowScenario MoreScenario.
#[local] Existing Instance PlainJson.json.

Lemma deviceflow_poll_times_out_witness :
  let r := exec (poll 4) (deviceflow_initiated never_authorized) in
  fst r = Throw (PRAutomatorError "Authentication timeout. Please try again."
                   "[object Object]" None)
  /\ timeouts (snd r) = [5000; 5000; 5000]
  /\ now (snd r) = 1000 + 3 * 5000.
Proof.
  cbn zeta.
  destruct (deviceflow_poll_times_out 4 (deviceflow_initiated never_authorized)
              "d1" 901000) as (Hthrow & _ & Htimeouts & Hnow & _).
  - reflexivity.
  - reflexivity.
  - vm_compute. congruence.
  - intros history. left. eexists _, _. reflexivity.
  - vm_compute. congruence.
  - vm_compute. lia.
  - split; [exact Hthrow|]. split; [exact Htimeouts | exact Hnow].
Defined.

Lemma deviceflow_poll_invalid_token_witness :
  let w := deviceflow_initiated (verifying (Resolves (NotOk "Unauthorized" tt))) in
  exec (poll_loop 1 0) w
  = (Throw (PRAutomatorError "Invalid access token" "[object Object]" None),
     sent (verify_request "new-token") (sent (access_token_request (flow w)) w)).
Proof.
  cbn zeta.
  apply (deviceflow_poll_invalid_token 0 0
           (deviceflow_initiated (verifying (Resolves (NotOk "Unauthorized" tt))))
           new_tokens).
  - vm_compute. reflexivity.
  - reflexivity.
  - intros u. vm_compute. congruence.
Defined.


Lemma deviceflow_initiate_fields_witness :
  let w := deviceflow_world offline 1000 ∅ in
  fst (exec initiate w)
  = Throw (PRAutomatorError "Failed to initiate device flow" "[object Object]"
             None)
  /\ flow (snd (exec initiate w)) = flow w.
Proof.
  cbn zeta.
  destruct (deviceflow_initiate_fields (deviceflow_world offline 1000 ∅))
    as (_ & _ & _ & _ & Hfailed).
  exact Hfailed.
Defined.

Lemma deviceflow_revoke_removes_nothing_witness :
  let w := world (verifying (Resolves (Ok tt))) 0 (vault_with classic_token) in
  fst (exec revoke w) = Return tt
  /\ is_Some (credentials (snd (exec revoke w)) !! TokenManager.TOKEN_INFO_KEY).
Proof.
  cbn zeta. split; [vm_compute; reflexivity|].
  apply (deviceflow_revoke_removes_nothing
           (world (verifying (Resolves (Ok tt))) 0 (vault_with classic_token))
           TokenManager.TOKEN_INFO_KEY).
  exists (PlainJson.stringify classic_token). reflexivity.
Defined.

Lemma deviceflow_revoke_without_token_witness :
  let r := exec revoke (world (verifying (Resolves (Ok tt))) 0 ∅) in
  fst r = Throw (PRAutomatorError "No token available" "[object Object]" None)
  /\ fetched (snd r) = [].
Proof.
  cbn zeta.
  destruct (deviceflow_revoke_without_token
              (world (verifying (Resolves (Ok tt))) 0 ∅)) as (Hthrow & Hfetched & _).
  - reflexivity.
  - split; [exact Hthrow | exact Hfetched].
Defined.

End DeviceFlowMoreRuns.
